(** * brosel: choosing a browser by URL rules

    A shallow embedding of [brosel.py] (Python 2): the configuration
    loader [Config.load_from_file] and the rule engine [select_and_open].

    The program is modelled as it is written: YAML documents are Python
    values, the [Config] object is a mutable store threaded through a
    state-and-exception monad, a [try]/[except] is a handler that catches
    the listed exception classes only, and the libraries the script calls
    ([yaml], [os.path], [re], [webbrowser]) are interfaces.  Of the
    diagnostic logging, the calls of the logger are left out; what a
    log line evaluates for its message and can raise is kept: the
    [%] formatting of a value read from the document, and the reads of
    the controller's attributes. *)

From Stdlib Require Import String Ascii ZArith.
From stdpp Require Import gmap strings list fin_maps.

Open Scope string_scope.

(** ** Python values *)

(** The values [yaml.load] builds from a document: null, booleans,
    integers, floats (kept as their literal), strings ([str] and
    [unicode], both [basestring]), sequences, mappings and, from the
    tag [!!python/tuple] that [yaml.load] accepts, tuples.  A mapping is
    the list of its items; Python keeps one item per key.  What further
    tags build (dates, sets, objects of Python classes) is outside the
    model. *)
#[warnings="-register-all"]
Inductive pyval : Type :=
| PyNone
| PyBool (b : bool)
| PyInt (z : Z)
| PyFloat (literal : string)
| PyStr (s : string)
| PyList (items : list pyval)
| PyDict (items : list (pyval * pyval))
| PyTuple (items : list pyval).

(** [isinstance(v, basestring)] *)
Definition is_basestring (v : pyval) : bool :=
  match v with PyStr _ => true | _ => false end.

(** Exceptions the script can meet.  [OutsideModel] is not a Python
    exception: a library model answers with it where it does not cover
    the library's behaviour; no handler catches it. *)
Inductive exn : Type :=
| KeyError
| TypeError
| IOError
| YAMLError
| ReError          (* re.error, raised by re.compile and by sub *)
| WebbrowserError  (* webbrowser.Error *)
| AttributeError
| OutsideModel.

Definition exn_eqb (a b : exn) : bool :=
  match a, b with
  | KeyError, KeyError | TypeError, TypeError | IOError, IOError
  | YAMLError, YAMLError | ReError, ReError
  | WebbrowserError, WebbrowserError | AttributeError, AttributeError
  | OutsideModel, OutsideModel => true
  | _, _ => false
  end.

(** The exception classes named by an [except] clause. *)
Definition one_of (classes : list exn) (e : exn) : bool :=
  existsb (exn_eqb e) classes.

Inductive res (A : Type) : Type :=
| Ret (a : A)
| Raise (e : exn).
Arguments Ret {A} a.
Arguments Raise {A} e.

Definition res_bind {A B} (r : res A) (f : A -> res B) : res B :=
  match r with Ret a => f a | Raise e => Raise e end.

(** [k == key] for a dictionary key [k] and a string [key]: only a
    string equals a string. *)
Definition key_is (key : string) (k : pyval) : bool :=
  match k with PyStr s => String.eqb s key | _ => false end.

Fixpoint dict_lookup (key : string) (items : list (pyval * pyval)) : option pyval :=
  match items with
  | [] => None
  | (k, v) :: rest => if key_is key k then Some v else dict_lookup key rest
  end.

(** [o[key]] for a string [key]: a mapping answers or raises [KeyError];
    strings and lists want integer indices, the other values are not
    subscriptable: [TypeError]. *)
Definition getitem (o : pyval) (key : string) : res pyval :=
  match o with
  | PyDict items =>
      match dict_lookup key items with
      | Some v => Ret v
      | None => Raise KeyError
      end
  | _ => Raise TypeError
  end.

(** The elements a [for] loop over [o] visits: the items of a list or
    a tuple, the keys of a mapping, the characters of a string; anything
    else is not iterable. *)
Definition py_iter (o : pyval) : res (list pyval) :=
  match o with
  | PyList items | PyTuple items => Ret items
  | PyDict items => Ret (map fst items)
  | PyStr s => Ret (map (fun c => PyStr (String c EmptyString)) (list_ascii_of_string s))
  | _ => Raise TypeError
  end.

(** [format % v] for a format with one [%s], as the log lines of the
    loader build their message before they pass it on: a tuple is
    taken as the list of arguments, so it must hold exactly one item;
    any other value is the one argument. *)
Definition percent_s (v : pyval) : res unit :=
  match v with
  | PyTuple [_] => Ret tt
  | PyTuple _ => Raise TypeError
  | _ => Ret tt
  end.

(** ** The configuration object and the monad of the script *)

Definition BROWSER_DEFAULT : string := "open -a Safari %s".

(** A rule is the dict [r] that [load_from_file] fills. *)
Abbreviation rule := (gmap string pyval).

(** [r.get(key)]: the value, or [None] when the key is missing. *)
Definition dict_get (r : rule) (key : string) : pyval :=
  default PyNone (r !! key).

Module Config.
Record t : Type := mk {
  browser_default : pyval;
  rules : list rule
}.
End Config.

(** A computation reads and writes the [Config] object and returns or
    raises; what was written before a raise stays written. *)
Definition M (A : Type) : Type := Config.t -> res A * Config.t.

Definition ret {A} (a : A) : M A := fun s => (Ret a, s).

Definition bind {A B} (m : M A) (f : A -> M B) : M B :=
  fun s =>
    match m s with
    | (Ret a, s') => f a s'
    | (Raise e, s') => (Raise e, s')
    end.

Definition lift {A} (r : res A) : M A := fun s => (r, s).

Definition gets {A} (f : Config.t -> A) : M A := fun s => (Ret (f s), s).

Definition modify (f : Config.t -> Config.t) : M unit := fun s => (Ret tt, f s).

(** [try: body except classes: handler] *)
Definition try_except {A} (body : M A) (classes : list exn) (handler : M A) : M A :=
  fun s =>
    match body s with
    | (Raise e, s') => if one_of classes e then handler s' else (Raise e, s')
    | done => done
    end.

Notation "x <- m ;; k" := (bind m (fun x => k))
  (at level 100, m at next level, right associativity).
Notation "m ;;; k" := (bind m (fun _ => k))
  (at level 100, right associativity).

(** [for x in xs: body], with the local variables the body assigns as
    the loop state [v]. *)
Fixpoint for_in {A V} (xs : list A) (body : A -> V -> M V) (v : V) : M V :=
  match xs with
  | [] => ret v
  | x :: rest => v' <- body x v ;; for_in rest body v'
  end.

(** ** The configuration file *)

(** What the loader sees of the machine: the candidate paths, which of
    them exist, and what [open] followed by [yaml.load] gives. *)
Class Host : Type := {
  cfg_files_list : list string;
  osp_exists : string -> bool;
  yaml_load : string -> res pyval
}.

Section Loader.
Context `{Host}.

Definition find_cfg_file : option string :=
  List.find osp_exists cfg_files_list.

Definition keys : list string := ["browser_id"; "url_pattern"; "url_replace"].

(** The body of the loop over [rules_data]. *)
Definition load_rule (r_data : pyval) (_ : unit) : M unit :=
  lift (percent_s r_data) ;;;
  r <- for_in keys
         (fun k (r : rule) =>
            try_except (v <- lift (getitem r_data k) ;; ret (<[k := v]> r))
                       [KeyError]
                       (ret r))
         (∅ : rule) ;;
  if (0 <? size r)%nat
  then modify (fun self => Config.mk (Config.browser_default self) (Config.rules self ++ [r])%list)
  else ret tt.

Definition load_from_file (fname : string) : M unit :=
  yaml_data <- try_except (lift (yaml_load fname)) [IOError; YAMLError] (ret PyNone) ;;
  lift (percent_s yaml_data) ;;;
  try_except
    (basic <- lift (getitem yaml_data "basic") ;;
     v <- lift (getitem basic "browser_id") ;;
     modify (fun self => Config.mk v (Config.rules self)))
    [KeyError; TypeError]
    (ret tt) ;;;
  try_except
    (rules_data <- lift (getitem yaml_data "rules") ;;
     lift (percent_s rules_data) ;;;
     entries <- lift (py_iter rules_data) ;;
     for_in entries load_rule tt)
    [KeyError; TypeError]
    (ret tt).

(** [Config.__init__]: the object starts from the built-in values. *)
Definition Config_init : M unit :=
  modify (fun _ => Config.mk (PyStr BROWSER_DEFAULT) []) ;;;
  match find_cfg_file with
  | Some fn => load_from_file fn
  | None => ret tt
  end.
End Loader.

(** ** The rule engine *)

(** ['%s' in s]: [webbrowser.get] takes such a string for a command
    line and answers with a [GenericBrowser] (or [BackgroundBrowser])
    built from it. *)
Definition is_command (s : string) : bool :=
  match String.index 0 "%s" s with Some _ => true | None => false end.

(** The two libraries the engine calls.  [re_compile] raises for a
    pattern that is not a regular expression; [re_sub p repl s] is
    [p.sub(repl, s)] and raises for a template it cannot expand;
    [webbrowser_get] raises when it finds no browser for its argument.
    A controller is read for its attributes [name] and [args], which
    not every controller class has, and asked to open a URL.  The
    controller of a command line has both attributes, and its [open]
    catches the failure to start the command; the URLs are strings
    that can be the argument of a command, as those the script is
    started with are. *)
Class Libs : Type := {
  pattern : Type;
  re_compile : string -> res pattern;
  re_search : pattern -> string -> bool;
  re_sub : pattern -> string -> string -> res string;
  browser : Type;
  webbrowser_get : pyval -> res browser;
  browser_name : browser -> res string;
  browser_args : browser -> res (list string);
  open_new_tab : browser -> string -> res bool;
  command_controller : forall (s : string) (b : browser),
    is_command s = true ->
    webbrowser_get (PyStr s) = Ret b ->
    (exists name, browser_name b = Ret name)
    /\ (exists args, browser_args b = Ret args)
    /\ (forall url, exists launched, open_new_tab b url = Ret launched)
}.

Section Engine.
Context `{Libs}.

(** The body of the loop over [cfg.rules]; the loop assigns the locals
    [url] and [selected_browser]. *)
Definition apply_rule (r : rule) (locals : string * browser) : M (string * browser) :=
  let '(url, selected_browser) := locals in
  let url_pattern := dict_get r "url_pattern" in
  let url_replace := dict_get r "url_replace" in
  let browser_id := dict_get r "browser_id" in
  match url_pattern with
  | PyStr pat =>
      p <- lift (re_compile pat) ;;
      if re_search p url then
        url <- match url_replace with
               | PyStr repl => lift (re_sub p repl url)
               | _ => ret url
               end ;;
        selected_browser <- match browser_id with
                            | PyStr _ => lift (webbrowser_get browser_id)
                            | _ => ret selected_browser
                            end ;;
        ret (url, selected_browser)
      else ret (url, selected_browser)
  | _ => ret (url, selected_browser)
  end.

(** The lines after the loop: the log line reads the controller's
    [name] and [args], then the URL is opened.  The answer is the
    controller and the URL of the call [open_new_tab] that returned. *)
Definition log_and_open (selected_browser : browser) (url : string) : res (browser * string) :=
  res_bind (browser_name selected_browser) (fun _ =>
    res_bind (browser_args selected_browser) (fun _ =>
      res_bind (open_new_tab selected_browser url) (fun _ =>
        Ret (selected_browser, url)))).

(** [select_and_open(url, cfg)], with [cfg] the object in the store.
    The result is the call [selected_browser.open_new_tab(url)] the
    function ends with. *)
Definition select_and_open (url : string) : M (browser * string) :=
  browser_default <- gets Config.browser_default ;;
  selected_browser <- lift (webbrowser_get browser_default) ;;
  rules <- gets Config.rules ;;
  locals <- for_in rules apply_rule (url, selected_browser) ;;
  lift (log_and_open (snd locals) (fst locals)).

(** The script's main block, after [cfg = Config()]: the URLs are
    opened in the order given. *)
Definition open_all (args : list string) : M (list (browser * string)) :=
  for_in args
    (fun arg opened => o <- select_and_open arg ;; ret (opened ++ [o])%list)
    [].
End Engine.

Section Main.
Context `{Host} `{Libs}.

Definition main (args : list string) : M (list (browser * string)) :=
  Config_init ;;; open_all args.
End Main.

(** ** A model of the [re] library

    The part of Python 2.7's regular expressions that the rules of the
    documentation use: literal characters, [.], [^], [$], escaped
    punctuation, capturing groups, [|] and the greedy [*], [+], [?].
    Matching is the backtracking search of the library: leftmost start
    first, alternatives left to right, repetitions longest first.
    Syntax beyond this part (character sets, counted and lazy
    repetition, [(?...)] groups, letter and digit escapes, repetition of
    an expression that can match the empty string) is answered with
    [OutsideModel]. *)
Module MiniRe.

Inductive regex : Type :=
| Eps
| Chr (c : ascii)
| Any
| Bol
| Eol
| Seq (a b : regex)
| Alt (a b : regex)
| Star (a : regex)
| Plus (a : regex)
| Opt (a : regex)
| Group (n : nat) (a : regex).

Fixpoint nullable (r : regex) : bool :=
  match r with
  | Eps | Bol | Eol | Star _ | Opt _ => true
  | Chr _ | Any => false
  | Seq a b => nullable a && nullable b
  | Alt a b => nullable a || nullable b
  | Plus a | Group _ a => nullable a
  end.

Definition repeated (r : regex) : bool :=
  match r with Star _ | Plus _ | Opt _ => true | _ => false end.

(** *** Compiling a pattern *)

(** An open group (or the whole pattern, numbered 0): the finished
    alternatives and the atoms of the current one, latest first. *)
Record frame : Type := Frame {
  f_group : nat;
  f_alts : list regex;
  f_cur : list regex
}.

Record pstate : Type := PState {
  p_top : frame;
  p_outer : list frame;
  p_groups : nat;        (* groups opened so far *)
  p_escaped : bool;      (* the last character was a backslash *)
  p_opened : bool        (* the last character was an opening parenthesis *)
}.

Fixpoint seq_of (atoms : list regex) : regex :=
  match atoms with
  | [] => Eps
  | [a] => a
  | a :: rest => Seq a (seq_of rest)
  end.

Fixpoint alt_of (first : regex) (others : list regex) : regex :=
  match others with
  | [] => first
  | b :: rest => Alt first (alt_of b rest)
  end.

Definition close_frame (f : frame) : regex :=
  match rev (seq_of (rev (f_cur f)) :: f_alts f) with
  | [] => Eps
  | a :: rest => alt_of a rest
  end.

Definition push_atom (a : regex) (st : pstate) : pstate :=
  let f := p_top st in
  PState (Frame (f_group f) (f_alts f) (a :: f_cur f))
         (p_outer st) (p_groups st) false false.

Definition is_alnum (c : ascii) : bool :=
  let n := nat_of_ascii c in
  ((48 <=? n) && (n <=? 57) || (65 <=? n) && (n <=? 90) || (97 <=? n) && (n <=? 122))%nat.

Definition quantify (q : regex -> regex) (lazy_mark : bool) (st : pstate) : res pstate :=
  let f := p_top st in
  match f_cur f with
  | [] => Raise ReError                         (* nothing to repeat *)
  | a :: before =>
      if repeated a then
        if lazy_mark then Raise OutsideModel    (* a lazy repetition *)
        else Raise ReError                      (* multiple repeat *)
      else if nullable a then Raise OutsideModel
      else Ret (PState (Frame (f_group f) (f_alts f) (q a :: before))
                       (p_outer st) (p_groups st) false false)
  end.

Definition pstep (st : pstate) (c : ascii) : res pstate :=
  if p_escaped st then
    if is_alnum c then Raise OutsideModel else Ret (push_atom (Chr c) st)
  else
    match c with
    | "\"%char =>
        Ret (PState (p_top st) (p_outer st) (p_groups st) true false)
    | "("%char =>
        let n := S (p_groups st) in
        Ret (PState (Frame n [] []) (p_top st :: p_outer st) n false true)
    | ")"%char =>
        match p_outer st with
        | [] => Raise ReError                   (* unbalanced parenthesis *)
        | parent :: outer =>
            let g := Group (f_group (p_top st)) (close_frame (p_top st)) in
            Ret (PState (Frame (f_group parent) (f_alts parent) (g :: f_cur parent))
                        outer (p_groups st) false false)
        end
    | "|"%char =>
        let f := p_top st in
        Ret (PState (Frame (f_group f) (seq_of (rev (f_cur f)) :: f_alts f) [])
                    (p_outer st) (p_groups st) false false)
    | "*"%char => quantify Star false st
    | "+"%char => quantify Plus false st
    | "?"%char => if p_opened st then Raise OutsideModel else quantify Opt true st
    | "."%char => Ret (push_atom Any st)
    | "^"%char => Ret (push_atom Bol st)
    | "$"%char => Ret (push_atom Eol st)
    | "["%char | "]"%char | "{"%char | "}"%char => Raise OutsideModel
    | _ => Ret (push_atom (Chr c) st)
    end.

Fixpoint psteps (st : pstate) (cs : list ascii) : res pstate :=
  match cs with
  | [] => Ret st
  | c :: rest => res_bind (pstep st c) (fun st' => psteps st' rest)
  end.

(** [re.compile(source)] *)
Definition compile (source : string) : res regex :=
  res_bind (psteps (PState (Frame 0 [] []) [] 0 false false) (list_ascii_of_string source))
    (fun st =>
       if p_escaped st then Raise ReError       (* bogus escape (end of line) *)
       else match p_outer st with
            | [] => Ret (close_frame (p_top st))
            | _ :: _ => Raise ReError           (* unbalanced parenthesis *)
            end).

(** *** Matching *)

(** A position in the subject, what is left of it, and for each group
    that matched the offsets of what it matched last. *)
Record mstate : Type := MState {
  m_pos : nat;
  m_rest : list ascii;
  m_caps : list (nat * (nat * nat))
}.

Definition kont : Type := mstate -> option mstate.

Definition newline : ascii := ascii_of_nat 10.

Definition at_end (rest : list ascii) : bool :=
  match rest with
  | [] => true
  | [c] => Ascii.eqb c newline
  | _ => false
  end.

(** Greedy repetition of [body]: one more round when it advances,
    else what follows. *)
Fixpoint star_loop (body : kont -> kont) (k : kont) (fuel : nat) (st : mstate) : option mstate :=
  match fuel with
  | O => k st
  | S fuel' =>
      match body (fun st' =>
                    if (m_pos st <? m_pos st')%nat then star_loop body k fuel' st' else None) st with
      | Some final => Some final
      | None => k st
      end
  end.

Fixpoint exec (r : regex) (k : kont) (st : mstate) : option mstate :=
  match r with
  | Eps => k st
  | Chr c =>
      match m_rest st with
      | x :: rest => if Ascii.eqb x c then k (MState (S (m_pos st)) rest (m_caps st)) else None
      | [] => None
      end
  | Any =>
      match m_rest st with
      | x :: rest => if Ascii.eqb x newline then None else k (MState (S (m_pos st)) rest (m_caps st))
      | [] => None
      end
  | Bol => if (m_pos st =? 0)%nat then k st else None
  | Eol => if at_end (m_rest st) then k st else None
  | Seq a b => exec a (exec b k) st
  | Alt a b =>
      match exec a k st with
      | Some final => Some final
      | None => exec b k st
      end
  | Star a => star_loop (exec a) k (S (length (m_rest st))) st
  | Plus a => exec a (fun st' => star_loop (exec a) k (S (length (m_rest st'))) st') st
  | Opt a =>
      match exec a k st with
      | Some final => Some final
      | None => k st
      end
  | Group n a =>
      exec a (fun st' => k (MState (m_pos st') (m_rest st')
                                   ((n, (m_pos st, m_pos st')) :: m_caps st'))) st
  end.

(** The leftmost match that starts at [pos] or later; [rest] is the
    subject from [pos] on.  The answer is the start of the match and
    the state at its end. *)
Fixpoint search_from (r : regex) (rest : list ascii) (pos : nat) : option (nat * mstate) :=
  match exec r Some (MState pos rest []) with
  | Some final => Some (pos, final)
  | None =>
      match rest with
      | [] => None
      | _ :: rest' => search_from r rest' (S pos)
      end
  end.

(** [p.search(subject)] as a truth value *)
Definition search (r : regex) (subject : string) : bool :=
  match search_from r (list_ascii_of_string subject) 0 with
  | Some _ => true
  | None => false
  end.

(** *** Substitution *)

Inductive titem : Type :=
| TLit (c : ascii)
| TGroup (n : nat).

Definition digit_of (c : ascii) : option nat :=
  let n := nat_of_ascii c in
  if ((48 <=? n) && (n <=? 57))%nat then Some (n - 48) else None.

(** The replacement template: [\1] to [\9] name a group, two
    backslashes are a backslash; the other escapes are not covered. *)
Fixpoint parse_template (t : list ascii) : res (list titem) :=
  match t with
  | [] => Ret []
  | "\"%char :: after =>
      match after with
      | [] => Raise ReError                     (* bogus escape (end of line) *)
      | c :: rest =>
          if Ascii.eqb c "\"%char then
            res_bind (parse_template rest) (fun items => Ret (TLit c :: items))
          else
            match digit_of c with
            | Some (S n) =>
                match rest with
                | d :: _ =>
                    match digit_of d with
                    | Some _ => Raise OutsideModel  (* a two-digit or octal escape *)
                    | None => res_bind (parse_template rest)
                                (fun items => Ret (TGroup (S n) :: items))
                    end
                | [] => Ret [TGroup (S n)]
                end
            | _ => Raise OutsideModel
            end
      end
  | c :: rest => res_bind (parse_template rest) (fun items => Ret (TLit c :: items))
  end.

Definition slice (s : list ascii) (b e : nat) : list ascii :=
  firstn (e - b) (skipn b s).

Fixpoint cap_lookup (n : nat) (caps : list (nat * (nat * nat))) : option (nat * nat) :=
  match caps with
  | [] => None
  | (m, span) :: rest => if (m =? n)%nat then Some span else cap_lookup n rest
  end.

(** The template with each group reference replaced by what the group
    matched; a reference to a group that did not match, or that the
    pattern does not have, is an error. *)
Fixpoint expand (items : list titem) (s : list ascii) (caps : list (nat * (nat * nat)))
  : res (list ascii) :=
  match items with
  | [] => Ret []
  | TLit c :: rest => res_bind (expand rest s caps) (fun out => Ret (c :: out))
  | TGroup n :: rest =>
      match cap_lookup n caps with
      | Some (b, e) => res_bind (expand rest s caps) (fun out => Ret (slice s b e ++ out)%list)
      | None => Raise ReError
      end
  end.

(** The loop of [sub]: [i] is the end of the last replaced match,
    [start] where the next search begins, [n] the number of
    replacements, [out] the output so far.  An empty match right
    after the last replaced match is skipped; after an empty match
    the search moves one character on. *)
Fixpoint sub_loop (fuel : nat) (r : regex) (items : list titem) (s : list ascii)
    (i start n : nat) (out : list ascii) : res (list ascii) :=
  match fuel with
  | O => Raise OutsideModel
  | S fuel' =>
      if (length s <? start)%nat then Ret (out ++ skipn i s)%list
      else
        match search_from r (skipn start s) start with
        | None => Ret (out ++ skipn i s)%list
        | Some (b, final) =>
            let e := m_pos final in
            let next := if (e =? b)%nat then S e else e in
            if (i =? b)%nat && (i =? e)%nat && (0 <? n)%nat then
              sub_loop fuel' r items s i next n out
            else
              res_bind (expand items s (m_caps final))
                (fun item =>
                   sub_loop fuel' r items s e next (S n) (out ++ slice s i b ++ item)%list)
        end
  end.

(** [p.sub(repl, subject)] *)
Definition sub (r : regex) (repl subject : string) : res string :=
  let s := list_ascii_of_string subject in
  res_bind (parse_template (list_ascii_of_string repl))
    (fun items =>
       res_bind (sub_loop (2 + length s) r items s 0 0 0 [])
         (fun out => Ret (string_of_list_ascii out))).

End MiniRe.

(** The engine's libraries on an example machine: [re] as modelled
    above, and a [webbrowser] that has a controller, written as its
    identifier, for every string; every controller has its attributes
    and opens. *)
#[local] Instance example_libs : Libs := {|
  pattern := MiniRe.regex;
  re_compile := MiniRe.compile;
  re_search := MiniRe.search;
  re_sub := MiniRe.sub;
  browser := string;
  webbrowser_get := fun v => match v with PyStr s => Ret s | _ => Raise OutsideModel end;
  browser_name := fun b => Ret b;
  browser_args := fun _ => Ret ["%s"];
  open_new_tab := fun _ _ => Ret true;
  command_controller := fun s b _ _ =>
    conj (ex_intro _ b eq_refl)
         (conj (ex_intro _ ["%s"] eq_refl) (fun _ => ex_intro _ true eq_refl))
|}.

(** ** Vocabulary of the statements *)

(** What a computation returns or raises from a given store. *)
Definition run {A} (m : M A) (cfg : Config.t) : res A := fst (m cfg).

Section EngineVocabulary.
Context `{Libs}.

(** The rule's pattern, when it is a string that compiles. *)
Definition compiled (r : rule) : option pattern :=
  match dict_get r "url_pattern" with
  | PyStr pat => match re_compile pat with Ret p => Some p | Raise _ => None end
  | _ => None
  end.

(** The rule's pattern is found in [url]. *)
Definition matches (r : rule) (url : string) : bool :=
  match compiled r with
  | Some p => re_search p url
  | None => false
  end.

(** The current URL after rule [r] saw [url]. *)
Definition rewritten (r : rule) (url : string) : string :=
  match compiled r, dict_get r "url_replace" with
  | Some p, PyStr repl =>
      if re_search p url
      then match re_sub p repl url with Ret url' => url' | Raise _ => url end
      else url
  | _, _ => url
  end.

(** The browser identifiers of the rules that match the URL current
    when they are evaluated and that name a browser, in rule order. *)
Fixpoint chosen_ids (rs : list rule) (url : string) : list string :=
  match rs with
  | [] => []
  | r :: rest =>
      (if matches r url
       then match dict_get r "browser_id" with PyStr id => [id] | _ => [] end
       else [])
      ++ chosen_ids rest (rewritten r url)
  end%list.

(** The browser after a matching rule [r], [b] being the one selected
    before it. *)
Definition choose_browser (r : rule) (b : browser) : res browser :=
  match dict_get r "browser_id" with
  | PyStr id => webbrowser_get (PyStr id)
  | _ => Ret b
  end.

(** The locals [url] and [selected_browser] after the loop over the
    rules: the default browser is looked up, then the rules are
    evaluated in order. *)
Definition evaluate (url : string) (cfg : Config.t) : res (string * browser) :=
  res_bind (webbrowser_get (Config.browser_default cfg)) (fun b0 =>
    run (for_in (Config.rules cfg) apply_rule (url, b0)) cfg).

(** A rule that is evaluated on [url] without effect: it has no string
    pattern, or its pattern compiles and is not found in [url]. *)
Definition misses (url : string) (r : rule) : bool :=
  match dict_get r "url_pattern" with
  | PyStr pat =>
      match re_compile pat with
      | Ret p => negb (re_search p url)
      | Raise _ => false
      end
  | _ => true
  end.
End EngineVocabulary.


(** ** Rules and configurations of the examples *)

Definition github_rule : rule :=
  {[ "url_pattern" := PyStr "github\.com"; "browser_id" := PyStr "chrome" ]}.

Definition https_rule : rule :=
  {[ "url_pattern" := PyStr "(.*)http:"; "url_replace" := PyStr "\1https:" ]}.

Definition firefox_rule : rule :=
  {[ "url_pattern" := PyStr "example"; "browser_id" := PyStr "firefox" ]}.

Definition chrome_rule : rule :=
  {[ "url_pattern" := PyStr "\.com"; "browser_id" := PyStr "chrome" ]}.

(** A pattern that is not a regular expression: the group is never closed. *)
Definition broken_rule : rule :=
  {[ "url_pattern" := PyStr "(internal"; "browser_id" := PyStr "chrome" ]}.

(** [http:] becomes [https:] wherever it occurs. *)
Definition upgrade_rule : rule :=
  {[ "url_pattern" := PyStr "http:"; "url_replace" := PyStr "https:" ]}.

(** Matches only what [upgrade_rule] produces. *)
Definition mirror_rule : rule :=
  {[ "url_pattern" := PyStr "https://(www\.)?example";
     "url_replace" := PyStr "https://mirror.example";
     "browser_id" := PyStr "firefox" ]}.

(** A rule as the loader keeps it when the document gives a number
    where a template is expected. *)
Definition odd_replace_rule : rule :=
  {[ "url_pattern" := PyStr "example"; "url_replace" := PyInt 42;
     "browser_id" := PyStr "chrome" ]}.

Definition safari (rules : list rule) : Config.t :=
  Config.mk (PyStr "safari") rules.

(** The compiled form of a pattern of the examples. *)
Definition regex_of (source : string) : MiniRe.regex :=
  match MiniRe.compile source with
  | Ret p => p
  | Raise _ => MiniRe.Eps
  end.

(** ** Vocabulary of the loader's statements *)

Definition is_mapping (v : pyval) : bool :=
  match v with PyDict _ => true | _ => false end.

(** The value a rule entry of the document has under [key], if the
    entry is a mapping with that key. *)
Definition entry_lookup (entry : pyval) (key : string) : option pyval :=
  match entry with
  | PyDict items => dict_lookup key items
  | _ => None
  end.

(** The entry has at least one of the three recognised keys. *)
Definition has_rule_key (entry : pyval) : bool :=
  existsb (fun k => match entry_lookup entry k with Some _ => true | None => false end) keys.

(** The value of [basic.browser_id] in a document, when the document is
    a mapping whose [basic] is a mapping with that key. *)
Definition basic_browser_id (doc : pyval) : option pyval :=
  match doc with
  | PyDict top =>
      match dict_lookup "basic" top with
      | Some (PyDict basic) => dict_lookup "browser_id" basic
      | _ => None
      end
  | _ => None
  end.

(** The dict [r] after the keys [ks] were tried on a mapping. *)
Definition picked (items : list (pyval * pyval)) (ks : list string) (r0 : rule) : rule :=
  foldl (fun (r : rule) k =>
           match dict_lookup k items with
           | Some v => <[k := v]> r
           | None => r
           end) r0 ks.

(** What the loop over [rules_data] appends: the mappings up to the
    first entry that is not one, each cut down to the recognised keys,
    the empty ones left out. *)
Fixpoint appended (entries : list pyval) : list rule :=
  match entries with
  | PyDict items :: rest =>
      ((if (0 <? size (picked items keys ∅))%nat then [picked items keys ∅] else [])
       ++ appended rest)%list
  | _ => []
  end.

(** A machine whose home directory holds the configuration file, with
    what reading it gives. *)
Definition host_with (document : res pyval) : Host := {|
  cfg_files_list := ["/Users/me/.brosel";
                     "/Users/me/Library/Application Support/brosel/brosel.yaml"];
  osp_exists := fun path => String.eqb path "/Users/me/.brosel";
  yaml_load := fun _ => document
|}.

(** The [Config] object before [__init__] has run. *)
Definition fresh : Config.t := Config.mk PyNone [].

(** Documents of the examples. *)
Definition doc_of_rules (entries : list pyval) : pyval :=
  PyDict [(PyStr "rules", PyList entries)].

Definition chrome_entry : pyval :=
  PyDict [(PyStr "url_pattern", PyStr "example"); (PyStr "browser_id", PyStr "chrome")].

Definition numeric_entry : pyval :=
  PyDict [(PyStr "url_pattern", PyStr "example"); (PyStr "browser_id", PyInt 42)].

Definition comment_entry : pyval :=
  PyDict [(PyStr "comment", PyStr "work sites")].

Definition numeric_default_doc : pyval :=
  PyDict [(PyStr "basic", PyDict [(PyStr "browser_id", PyInt 42)])].

(** The elements the loader's loop over [rules_data] visits in a
    document: none when there is no [rules], when its log line fails or
    when it cannot be iterated. *)
Definition visited (doc : pyval) : list pyval :=
  match doc with
  | PyDict top =>
      match dict_lookup "rules" top with
      | Some rules_data =>
          match res_bind (percent_s rules_data) (fun _ => py_iter rules_data) with
          | Ret entries => entries
          | Raise _ => []
          end
      | None => []
      end
  | _ => []
  end.

(** ** Textual replacement, to compare [sub] with *)

(** A character that stands for itself in a pattern. *)
Definition plain_char (c : ascii) : bool :=
  negb (existsb (Ascii.eqb c) (list_ascii_of_string "\()|*+?.^$[]{}")).

(** A template without escapes stands for itself. *)
Definition plain_template (repl : list ascii) : bool :=
  forallb (fun x => negb (Ascii.eqb x "\"%char)) repl.

(** [s] with every [c] replaced by [repl]. *)
Definition replace_char (c : ascii) (repl s : list ascii) : list ascii :=
  flat_map (fun x => if Ascii.eqb x c then repl else [x]) s.

(** ** Vocabulary of the further statements *)

(** The rule has a string under [key]. *)
Definition has_string (key : string) (r : rule) : bool :=
  is_basestring (dict_get r key).

(** A machine on which no candidate path exists. *)
Definition host_without_file : Host := {|
  cfg_files_list := ["/Users/me/.brosel";
                     "/Users/me/Library/Application Support/brosel/brosel.yaml"];
  osp_exists := fun _ => false;
  yaml_load := fun _ => Raise IOError
|}.

(** A machine with the application-support file only. *)
Definition host_with_support_file (document : res pyval) : Host := {|
  cfg_files_list := ["/Users/me/.brosel";
                     "/Users/me/Library/Application Support/brosel/brosel.yaml"];
  osp_exists := fun path =>
    String.eqb path "/Users/me/Library/Application Support/brosel/brosel.yaml";
  yaml_load := fun _ => document
|}.

(** The libraries on a machine where only the browsers of [installed]
    can be found. *)
Definition libs_with_browsers (installed : list string) : Libs := {|
  pattern := MiniRe.regex;
  re_compile := MiniRe.compile;
  re_search := MiniRe.search;
  re_sub := MiniRe.sub;
  browser := string;
  webbrowser_get := fun v =>
    match v with
    | PyStr s => if existsb (String.eqb s) installed then Ret s else Raise WebbrowserError
    | _ => Raise OutsideModel
    end;
  browser_name := fun b => Ret b;
  browser_args := fun _ => Ret ["%s"];
  open_new_tab := fun _ _ => Ret true;
  command_controller := fun s b _ _ =>
    conj (ex_intro _ b eq_refl)
         (conj (ex_intro _ ["%s"] eq_refl) (fun _ => ex_intro _ true eq_refl))
|}.

(** A rule that names a browser and has no pattern. *)
Definition browser_only_rule : rule := {[ "browser_id" := PyStr "chrome" ]}.

(** A template that refers to a group the pattern does not have. *)
Definition bad_template_rule : rule :=
  {[ "url_pattern" := PyStr "example"; "url_replace" := PyStr "\1" ]}.

(** The rule is kept by the loader's test [len(r) > 0] and draws its
    keys from the three the loader tries. *)
Definition well_formed_rule (r : rule) : Prop :=
  r <> ∅ /\ forall k, is_Some (r !! k) -> k ∈ keys.

(** One of the library calls the engine makes for rule [r] raises [e]:
    compiling its pattern, substituting its template in some URL, or
    looking its browser up. *)
Definition library_raises `{Libs} (r : rule) (e : exn) : Prop :=
  (exists pat, dict_get r "url_pattern" = PyStr pat /\ re_compile pat = Raise e)
  \/ (exists pat p repl current,
        dict_get r "url_pattern" = PyStr pat /\ re_compile pat = Ret p
        /\ dict_get r "url_replace" = PyStr repl /\ re_sub p repl current = Raise e)
  \/ (exists id, dict_get r "browser_id" = PyStr id /\ webbrowser_get (PyStr id) = Raise e).

(** Each URL resolved on its own against the same configuration, up to
    the first that raises. *)
Fixpoint resolve_each `{Libs} (args : list string) (cfg : Config.t)
  : res (list (browser * string)) :=
  match args with
  | [] => Ret []
  | arg :: rest =>
      res_bind (run (select_and_open arg) cfg) (fun o =>
        res_bind (resolve_each rest cfg) (fun os => Ret (o :: os)))
  end.

(** The libraries on a machine whose [webbrowser] answers a browser
    name with a controller that has no attribute [name], as the
    controller class for macOS does in Python 2.7; the controller of a
    command line has it. *)
Definition libs_without_names : Libs := {|
  pattern := MiniRe.regex;
  re_compile := MiniRe.compile;
  re_search := MiniRe.search;
  re_sub := MiniRe.sub;
  browser := string;
  webbrowser_get := fun v => match v with PyStr s => Ret s | _ => Raise OutsideModel end;
  browser_name := fun b => if is_command b then Ret b else Raise AttributeError;
  browser_args := fun _ => Ret ["%s"];
  open_new_tab := fun _ _ => Ret true;
  command_controller := fun s b Hcommand Hget =>
    match Hget in (_ = answer) return
          match answer with
          | Ret b' =>
              (exists name, (if is_command b' then Ret b' else Raise AttributeError) = Ret name)
              /\ (exists args, Ret ["%s"] = Ret args)
              /\ (forall url : string, exists launched, Ret true = Ret launched)
          | Raise _ => True
          end
    with
    | eq_refl =>
        conj (ex_intro _ s (match eq_sym Hcommand in (_ = c) return
                                  (if c then Ret s else Raise AttributeError) = Ret s
                            with eq_refl => eq_refl end))
             (conj (ex_intro _ ["%s"] eq_refl) (fun _ => ex_intro _ true eq_refl))
    end
|}.

(** A rule that rewrites the URL and holds a number where a browser
    is expected. *)
Definition odd_browser_rule : rule :=
  {[ "url_pattern" := PyStr "http:"; "url_replace" := PyStr "https:";
     "browser_id" := PyInt 42 ]}.

(** ** What [sub] replaces *)

(** The match the model of [re] finds when it tries position [k] of
    the subject: the position where it ends and what its groups
    matched; nothing when the pattern does not match there. *)
Definition match_at (r : MiniRe.regex) (subject : list ascii) (k : nat)
  : option (nat * list (nat * (nat * nat))) :=
  match MiniRe.exec r Some (MiniRe.MState k (skipn k subject) []) with
  | Some final => Some (MiniRe.m_pos final, MiniRe.m_caps final)
  | None => None
  end.

(** No occurrence of the pattern starts at a position from [lo] up to,
    not including, [hi]; only, where a replaced match has just ended
    ([after_match], at [lo]) an empty occurrence there is let be. *)
Definition nothing_left (r : MiniRe.regex) (subject : list ascii)
    (after_match : bool) (lo hi : nat) : Prop :=
  forall k, lo <= k < hi ->
    match match_at r subject k with
    | None => True
    | Some (e, _) => after_match = true /\ k = lo /\ e = k
    end.

(** [replaced_from r items subject after_match i out]: [out] is the
    subject from position [i] on, with every occurrence of the pattern
    replaced.  Either nothing is left to replace and the rest is
    copied; or the next occurrence, from [b] to [e], is the first the
    pattern has at or after [i], the text in front of it is copied, the
    template is expanded with the groups of that match, and the same
    holds from [e] on.  An empty occurrence right where the last
    replaced match ended is not the next occurrence. *)
Inductive replaced_from (r : MiniRe.regex) (items : list MiniRe.titem) (subject : list ascii)
  : bool -> nat -> list ascii -> Prop :=
| replaced_rest (after_match : bool) (i : nat) :
    nothing_left r subject after_match i (S (length subject)) ->
    replaced_from r items subject after_match i (skipn i subject)
| replaced_occurrence (after_match : bool) (i b e : nat) (caps : list (nat * (nat * nat)))
    (item tail : list ascii) :
    i <= b -> b <= e -> e <= length subject ->
    nothing_left r subject after_match i b ->
    match_at r subject b = Some (e, caps) ->
    (after_match = true -> b = i -> b < e) ->
    MiniRe.expand items subject caps = Ret item ->
    replaced_from r items subject true e tail ->
    replaced_from r items subject after_match i (MiniRe.slice subject i b ++ item ++ tail)%list.

(** What an item of a template stands for, given what the groups of a
    match matched: a literal character stands for itself, a reference
    for the part of the subject its group matched; a reference to a
    group that matched nothing stands for nothing. *)
Definition item_text (subject : list ascii) (caps : list (nat * (nat * nat)))
    (item : MiniRe.titem) : option (list ascii) :=
  match item with
  | MiniRe.TLit c => Some [c]
  | MiniRe.TGroup n =>
      match MiniRe.cap_lookup n caps with
      | Some (b, e) => Some (MiniRe.slice subject b e)
      | None => None
      end
  end.

(** The matcher hands its continuation a position further on in the
    same subject. *)
Definition advances (st st' : MiniRe.mstate) : Prop :=
  MiniRe.m_pos st <= MiniRe.m_pos st'
  /\ MiniRe.m_pos st' + length (MiniRe.m_rest st')
     = MiniRe.m_pos st + length (MiniRe.m_rest st).

Definition passes_on (body : MiniRe.kont -> MiniRe.kont) : Prop :=
  forall (k : MiniRe.kont) (st final : MiniRe.mstate),
    body k st = Some final -> exists st', k st' = Some final /\ advances st st'.

(** The states of the loop of [sub]: the search starts where the last
    replaced match ended, or one further when an empty match was found
    there. *)
Definition loop_state (r : MiniRe.regex) (s : list ascii) (i start n : nat) : Prop :=
  start = i
  \/ (start = S i /\ 0 < n /\ exists caps, match_at r s i = Some (i, caps)).

(** ** The model of [re]: a one-character pattern *)

Module MiniReFacts.
Import MiniRe.

Lemma compile_plain_char (c : ascii) :
  plain_char c = true -> compile (String c EmptyString) = Ret (Chr c).
Proof.
  destruct c as [[] [] [] [] [] [] [] []]; intros Hp;
    first [ discriminate Hp | reflexivity ].
Qed.

Lemma parse_plain_template (repl : list ascii) :
  plain_template repl = true -> parse_template repl = Ret (map TLit repl).
Proof.
  induction repl as [|x repl IH]; intros Hp; [reflexivity|].
  cbn [plain_template forallb] in Hp. apply andb_prop in Hp as [Hx Hp].
  cbn [parse_template map].
  destruct x as [[] [] [] [] [] [] [] []]; try discriminate Hx;
    rewrite (IH Hp); reflexivity.
Qed.

Lemma expand_literals (repl s : list ascii) (caps : list (nat * (nat * nat))) :
  expand (map TLit repl) s caps = Ret repl.
Proof.
  induction repl as [|x repl IH]; [reflexivity|].
  cbn [map expand]. rewrite IH. reflexivity.
Qed.

Lemma replace_char_absent (c : ascii) (repl mid : list ascii) :
  forallb (fun x => negb (Ascii.eqb x c)) mid = true ->
  replace_char c repl mid = mid.
Proof.
  induction mid as [|x mid IH]; intros Hm; [reflexivity|].
  cbn [forallb] in Hm. apply andb_prop in Hm as [Hx Hm].
  unfold replace_char in *. cbn [flat_map].
  destruct (Ascii.eqb x c); [discriminate|]. rewrite (IH Hm). reflexivity.
Qed.

Lemma replace_char_app (c : ascii) (repl a b : list ascii) :
  replace_char c repl (a ++ b) = (replace_char c repl a ++ replace_char c repl b)%list.
Proof. unfold replace_char. apply flat_map_app. Qed.

(** The search for one character finds its first occurrence. *)
Lemma search_char (c : ascii) (rest : list ascii) :
  forall pos : nat,
    match search_from (Chr c) rest pos with
    | None => forallb (fun x => negb (Ascii.eqb x c)) rest = true
    | Some (b, final) =>
        exists mid post,
          rest = (mid ++ c :: post)%list
          /\ forallb (fun x => negb (Ascii.eqb x c)) mid = true
          /\ b = pos + length mid
          /\ final = MState (S b) post []
    end.
Proof.
  induction rest as [|x rest IH]; intros pos; [reflexivity|].
  cbn [search_from exec m_rest m_pos m_caps].
  destruct (Ascii.eqb x c) eqn:Hx.
  - apply Ascii.eqb_eq in Hx as ->.
    exists [], rest. cbn. rewrite Nat.add_0_r. auto.
  - specialize (IH (S pos)).
    destruct (search_from (Chr c) rest (S pos)) as [[b final]|].
    + destruct IH as (mid & post & -> & Hmid & -> & ->).
      exists (x :: mid), post. cbn [app forallb length]. rewrite Hx, Hmid.
      repeat split; try reflexivity; first [lia | f_equal; lia].
    + cbn [forallb]. rewrite Hx, IH. reflexivity.
Qed.

Lemma sub_loop_char (c : ascii) (repl : list ascii) (fuel : nat) :
  forall (pre suf out : list ascii) (n : nat),
    length suf + 2 <= fuel ->
    sub_loop fuel (Chr c) (map TLit repl) (pre ++ suf) (length pre) (length pre) n out
      = Ret (out ++ replace_char c repl suf)%list.
Proof.
  induction fuel as [|fuel IH]; intros pre suf out n Hfuel; [lia|].
  cbn [sub_loop].
  assert (Hlen : (length (pre ++ suf) <? length pre)%nat = false).
  { apply Nat.ltb_ge. rewrite length_app. lia. }
  rewrite Hlen, drop_app_length.
  pose proof (search_char c suf (length pre)) as Hsearch.
  destruct (search_from (Chr c) suf (length pre)) as [[b final]|].
  - destruct Hsearch as (mid & post & -> & Hmid & -> & ->).
    cbn [m_pos m_caps].
    replace (S (length pre + length mid) =? length pre + length mid)%nat with false
      by (symmetry; apply Nat.eqb_neq; lia).
    replace (length pre =? S (length pre + length mid))%nat with false
      by (symmetry; apply Nat.eqb_neq; lia).
    rewrite andb_false_r. cbn [andb].
    rewrite expand_literals. cbn [res_bind].
    assert (Hslice : slice (pre ++ mid ++ c :: post) (length pre) (length pre + length mid) = mid).
    { unfold slice. rewrite drop_app_length.
      replace (length pre + length mid - length pre) with (length mid) by lia.
      apply take_app_length. }
    rewrite Hslice.
    replace (pre ++ mid ++ c :: post)%list with ((pre ++ mid ++ [c]) ++ post)%list
      by (rewrite <- !app_assoc; reflexivity).
    replace (S (length pre + length mid)) with (length (pre ++ mid ++ [c]))
      by (rewrite !length_app; cbn; lia).
    rewrite IH by (rewrite length_app in Hfuel; cbn in Hfuel; lia).
    f_equal. rewrite replace_char_app, (replace_char_absent c repl mid Hmid).
    unfold replace_char at 2. cbn [flat_map]. rewrite Ascii.eqb_refl.
    rewrite <- !app_assoc. reflexivity.
  - rewrite (replace_char_absent c repl suf Hsearch). reflexivity.
Qed.

(** For a pattern of one plain character and a template without
    escapes, [sub] replaces every occurrence of the character by the
    template and leaves the other characters as they are. *)
Lemma sub_char_everywhere (c : ascii) (repl subject : string) :
  plain_char c = true ->
  plain_template (list_ascii_of_string repl) = true ->
  res_bind (compile (String c EmptyString)) (fun p => sub p repl subject)
    = Ret (string_of_list_ascii
             (replace_char c (list_ascii_of_string repl) (list_ascii_of_string subject))).
Proof.
  intros Hc Hrepl. rewrite (compile_plain_char c Hc). cbn [res_bind].
  unfold sub. rewrite (parse_plain_template _ Hrepl). cbn [res_bind].
  rewrite (sub_loop_char c _ _ [] (list_ascii_of_string subject) [] 0) by (cbn; lia).
  reflexivity.
Qed.
End MiniReFacts.

(** ** The model of [re]: every occurrence is replaced *)

Module MiniReSub.
Import MiniRe.

Lemma advances_refl (st : mstate) : advances st st.
Proof. split; reflexivity. Qed.

Lemma advances_trans (st1 st2 st3 : mstate) :
  advances st1 st2 -> advances st2 st3 -> advances st1 st3.
Proof. unfold advances. intros [? ?] [? ?]. split; lia. Qed.

Lemma star_loop_passes_on (body : kont -> kont) (k : kont) (fuel : nat) :
  passes_on body ->
  forall st final,
    star_loop body k fuel st = Some final ->
    exists st', k st' = Some final /\ advances st st'.
Proof.
  intros Hbody. induction fuel as [|fuel IH]; intros st final; cbn [star_loop].
  - intros Hk. exists st. split; [exact Hk | apply advances_refl].
  - destruct (body _ st) as [x|] eqn:Hx.
    + intros [= ->]. apply Hbody in Hx as (st1 & Hcont & Hadv).
      destruct (m_pos st <? m_pos st1)%nat; [|discriminate].
      apply IH in Hcont as (st' & Hk & Hadv').
      exists st'. split; [exact Hk | exact (advances_trans _ _ _ Hadv Hadv')].
    + intros Hk. exists st. split; [exact Hk | apply advances_refl].
Qed.

Lemma exec_passes_on (r : regex) : passes_on (exec r).
Proof.
  induction r as [| c | | | | a IHa b IHb | a IHa b IHb | a IHa | a IHa | a IHa | n a IHa];
    intros k st final; cbn [exec].
  - intros Hk. exists st. split; [exact Hk | apply advances_refl].
  - destruct st as [pos [|x rest] caps]; cbn; [discriminate|].
    destruct (Ascii.eqb x c); [|discriminate].
    intros Hk. eexists. split; [exact Hk|]. split; cbn; lia.
  - destruct st as [pos [|x rest] caps]; cbn; [discriminate|].
    destruct (Ascii.eqb x newline); [discriminate|].
    intros Hk. eexists. split; [exact Hk|]. split; cbn; lia.
  - destruct (m_pos st =? 0)%nat; [|discriminate].
    intros Hk. exists st. split; [exact Hk | apply advances_refl].
  - destruct (at_end (m_rest st)); [|discriminate].
    intros Hk. exists st. split; [exact Hk | apply advances_refl].
  - intros Hab. apply IHa in Hab as (st1 & Hb & Hadv1).
    apply IHb in Hb as (st2 & Hk & Hadv2).
    exists st2. split; [exact Hk | exact (advances_trans _ _ _ Hadv1 Hadv2)].
  - destruct (exec a k st) as [x|] eqn:Ha.
    + intros [= ->]. exact (IHa _ _ _ Ha).
    + apply IHb.
  - apply star_loop_passes_on, IHa.
  - intros Ha. apply IHa in Ha as (st1 & Hstar & Hadv1).
    apply (star_loop_passes_on _ _ _ IHa) in Hstar as (st2 & Hk & Hadv2).
    exists st2. split; [exact Hk | exact (advances_trans _ _ _ Hadv1 Hadv2)].
  - destruct (exec a k st) as [x|] eqn:Ha.
    + intros [= ->]. exact (IHa _ _ _ Ha).
    + intros Hk. exists st. split; [exact Hk | apply advances_refl].
  - intros Ha. apply IHa in Ha as (st1 & Hk & Hadv1).
    eexists. split; [exact Hk|]. exact Hadv1.
Qed.

(** A match that starts at [b] ends at or after [b], within the subject. *)
Lemma match_at_bounds (r : regex) (s : list ascii) (b e : nat)
    (caps : list (nat * (nat * nat))) :
  b <= length s ->
  match_at r s b = Some (e, caps) ->
  b <= e <= length s.
Proof.
  unfold match_at. intros Hb.
  destruct (exec r Some _) as [final|] eqn:Hexec; [|discriminate].
  intros [= <- <-]. apply exec_passes_on in Hexec as (st' & [= ->] & Hle & Hsum).
  cbn in Hle, Hsum. rewrite length_drop in Hsum. lia.
Qed.

(** The search from [pos] on finds the first position where the
    pattern matches. *)
Lemma search_from_first (r : regex) (rest : list ascii) :
  forall pos : nat,
    match search_from r rest pos with
    | Some (b, final) =>
        exists j, b = pos + j /\ j <= length rest
                  /\ exec r Some (MState b (skipn j rest) []) = Some final
                  /\ forall j', j' < j ->
                       exec r Some (MState (pos + j') (skipn j' rest) []) = None
    | None =>
        forall j', j' <= length rest ->
          exec r Some (MState (pos + j') (skipn j' rest) []) = None
    end.
Proof.
  induction rest as [|x rest IH]; intros pos; cbn [search_from].
  - destruct (exec r Some (MState pos [] [])) as [final|] eqn:Hexec.
    + exists 0. rewrite Nat.add_0_r. cbn. repeat split; [lia | exact Hexec | intros; lia].
    + intros j' Hj'. cbn in Hj'. assert (j' = 0) as -> by lia.
      rewrite Nat.add_0_r. exact Hexec.
  - destruct (exec r Some (MState pos (x :: rest) [])) as [final|] eqn:Hexec.
    + exists 0. rewrite Nat.add_0_r. cbn. repeat split; [lia | exact Hexec | intros; lia].
    + specialize (IH (S pos)).
      destruct (search_from r rest (S pos)) as [[b final]|].
      * destruct IH as (j & -> & Hj & Hfound & Hnone).
        exists (S j). cbn [skipn length]. repeat split; [lia | lia | | ].
        -- replace (pos + S j) with (S pos + j) by lia. exact Hfound.
        -- intros [|j'] Hj'; [rewrite Nat.add_0_r; exact Hexec|].
           replace (pos + S j') with (S pos + j') by lia. cbn [skipn]. apply Hnone. lia.
      * intros [|j'] Hj'; [rewrite Nat.add_0_r; exact Hexec|].
        replace (pos + S j') with (S pos + j') by lia. cbn [skipn].
        apply IH. cbn in Hj'. lia.
Qed.

(** The search the loop of [sub] makes, in positions of the subject. *)
Lemma search_in_subject (r : regex) (s : list ascii) (start : nat) :
  start <= length s ->
  match search_from r (skipn start s) start with
  | Some (b, final) =>
      start <= b <= length s
      /\ match_at r s b = Some (m_pos final, m_caps final)
      /\ forall k, start <= k < b -> match_at r s k = None
  | None => forall k, start <= k <= length s -> match_at r s k = None
  end.
Proof.
  intros Hstart. pose proof (search_from_first r (skipn start s) start) as Hsearch.
  destruct (search_from r (skipn start s) start) as [[b final]|].
  - destruct Hsearch as (j & -> & Hj & Hfound & Hnone).
    rewrite length_drop in Hj. rewrite drop_drop in Hfound.
    split; [lia|]. split.
    + unfold match_at. rewrite Hfound. reflexivity.
    + intros k Hk. unfold match_at.
      specialize (Hnone (k - start) ltac:(lia)). rewrite drop_drop in Hnone.
      replace (start + (k - start)) with k in Hnone by lia. rewrite Hnone. reflexivity.
  - intros k Hk. unfold match_at.
    specialize (Hsearch (k - start)). rewrite length_drop, drop_drop in Hsearch.
    replace (start + (k - start)) with k in Hsearch by lia.
    rewrite Hsearch by lia. reflexivity.
Qed.

Lemma sub_loop_replaced (r : regex) (items : list titem) (s : list ascii) (fuel : nat) :
  forall (i start n : nat) (out result : list ascii),
    sub_loop fuel r items s i start n out = Ret result ->
    i <= length s ->
    loop_state r s i start n ->
    exists tail, result = (out ++ tail)%list
                 /\ replaced_from r items s (0 <? n)%nat i tail.
Proof.
  induction fuel as [|fuel IH]; intros i start n out result; cbn [sub_loop]; [discriminate|].
  intros Hrun Hi Hstate.
  assert (Hleft : forall hi,
             (forall k, start <= k < hi -> match_at r s k = None) ->
             nothing_left r s (0 <? n)%nat i hi).
  { intros hi Hnone k Hk. destruct Hstate as [->|(-> & Hn & caps & Hempty)].
    - rewrite (Hnone k Hk). exact I.
    - destruct (decide (k = i)) as [->|Hne].
      + rewrite Hempty. apply Nat.ltb_lt in Hn. auto.
      + rewrite (Hnone k) by lia. exact I. }
  destruct (length s <? start)%nat eqn:Hpast.
  - injection Hrun as <-. exists (skipn i s). split; [reflexivity|].
    apply replaced_rest, Hleft. intros k Hk. apply Nat.ltb_lt in Hpast. lia.
  - apply Nat.ltb_ge in Hpast.
    pose proof (search_in_subject r s start Hpast) as Hsearch.
    destruct (search_from r (skipn start s) start) as [[b final]|].
    + destruct Hsearch as (Hb & Hmatch & Hnone).
      destruct final as [e left_over caps]. cbn [m_pos m_caps] in *.
      pose proof (match_at_bounds r s b e caps ltac:(lia) Hmatch) as He.
      assert (Hib : i <= b) by (destruct Hstate as [->|(-> & _)]; lia).
      destruct ((i =? b)%nat && (i =? e)%nat && (0 <? n)%nat) eqn:Hskip.
      * apply andb_prop in Hskip as [Hskip Hn]. apply andb_prop in Hskip as [Hb' He'].
        apply Nat.eqb_eq in Hb', He'. apply Nat.ltb_lt in Hn. subst b.
        rewrite <- He', Nat.eqb_refl in Hrun.
        apply IH in Hrun as (tail & -> & Htail); [| exact Hi |].
        -- exists tail. split; [reflexivity | exact Htail].
        -- right. split; [reflexivity|]. split; [exact Hn|].
           exists caps. rewrite Hmatch, <- He'. reflexivity.
      * destruct (expand items s caps) as [item|err] eqn:Hitem; cbn [res_bind] in Hrun;
          [|discriminate].
        apply IH in Hrun as (tail & -> & Htail); [| lia |].
        -- exists (slice s i b ++ item ++ tail)%list. split.
           ++ rewrite <- !app_assoc. reflexivity.
           ++ apply (replaced_occurrence r items s _ i b e caps item tail); try lia; auto.
              intros Hafter ->. apply Nat.ltb_lt in Hafter.
              destruct (decide (i = e)) as [Heq|Hne]; [|lia].
              rewrite <- Heq, Nat.eqb_refl in Hskip. cbn in Hskip.
              destruct n; [lia | discriminate].
        -- destruct (e =? b)%nat eqn:Heb.
           ++ apply Nat.eqb_eq in Heb. subst b. right.
              split; [reflexivity|]. split; [lia|]. exists caps. exact Hmatch.
           ++ left. reflexivity.
    + injection Hrun as <-. exists (skipn i s). split; [reflexivity|].
      apply replaced_rest, Hleft. intros k Hk. apply Hsearch. lia.
Qed.

(** [sub] replaces every occurrence: what it returns is the subject
    with each occurrence of the pattern, from the first on and none
    overlapping the one before, replaced by the template expanded with
    the groups of that occurrence, and the text between copied. *)
Lemma sub_replaces_every_occurrence (r : regex) (repl subject out : string) :
  sub r repl subject = Ret out ->
  exists items,
    parse_template (list_ascii_of_string repl) = Ret items
    /\ replaced_from r items (list_ascii_of_string subject) false 0 (list_ascii_of_string out).
Proof.
  unfold sub. destruct (parse_template (list_ascii_of_string repl)) as [items|e];
    cbn [res_bind]; [|discriminate].
  destruct (sub_loop _ r items _ 0 0 0 []) as [result|e] eqn:Hloop; cbn [res_bind];
    [|discriminate].
  intros [= <-]. exists items. split; [reflexivity|].
  apply sub_loop_replaced in Hloop as (tail & -> & Htail); [| lia | left; reflexivity].
  rewrite list_ascii_of_string_of_list_ascii. exact Htail.
Qed.

(** The relation leaves no choice: two texts it accepts are the same. *)
Lemma replaced_from_unique (r : regex) (items : list titem) (s : list ascii)
    (after_match : bool) (i : nat) (out1 out2 : list ascii) :
  replaced_from r items s after_match i out1 ->
  replaced_from r items s after_match i out2 ->
  out1 = out2.
Proof.
  intros H1. revert out2.
  induction H1 as [after i Hleft | after i b e caps item tail Hib Hbe He Hleft Hmatch Hnext
                                         Hitem Htail IH];
    intros out2 H2.
  - inversion H2 as [| ? ? b e caps item tail Hib Hbe He Hleft' Hmatch Hnext]; subst;
      [reflexivity|].
    exfalso. specialize (Hleft b ltac:(lia)). rewrite Hmatch in Hleft.
    destruct Hleft as (Hafter & -> & ->). specialize (Hnext Hafter eq_refl). lia.
  - inversion H2 as [? ? Hleft' | ? ? b' e' caps' item' tail' Hib' Hbe' He' Hleft' Hmatch' Hnext'
                                        Hitem' Htail']; subst.
    + exfalso. specialize (Hleft' b ltac:(lia)). rewrite Hmatch in Hleft'.
      destruct Hleft' as (Hafter & -> & ->). specialize (Hnext Hafter eq_refl). lia.
    + assert (b = b') as <-.
      { destruct (Nat.lt_trichotomy b b') as [Hlt|[Heq|Hgt]]; [|exact Heq|]; exfalso.
        - specialize (Hleft' b ltac:(lia)). rewrite Hmatch in Hleft'.
          destruct Hleft' as (Hafter & -> & ->). specialize (Hnext Hafter eq_refl). lia.
        - specialize (Hleft b' ltac:(lia)). rewrite Hmatch' in Hleft.
          destruct Hleft as (Hafter & -> & ->). specialize (Hnext' Hafter eq_refl). lia. }
      rewrite Hmatch in Hmatch'. injection Hmatch' as <- <-.
      rewrite Hitem in Hitem'. injection Hitem' as <-.
      rewrite (IH _ Htail'). reflexivity.
Qed.

(** The expansion of a template is its items one after the other, a
    literal as itself and a reference as what its group matched. *)
Lemma expand_spec (items : list titem) (s : list ascii)
    (caps : list (nat * (nat * nat))) (out : list ascii) :
  expand items s caps = Ret out <->
  exists texts, Forall2 (fun item text => item_text s caps item = Some text) items texts
                /\ out = concat texts.
Proof.
  revert out. induction items as [|[c|n] items IH]; intros out; cbn [expand].
  - split.
    + intros [= <-]. exists []. split; [constructor | reflexivity].
    + intros (texts & HF & ->). inversion HF. reflexivity.
  - split.
    + destruct (expand items s caps) as [tail|e]; cbn [res_bind]; [|discriminate].
      intros [= <-]. destruct (proj1 (IH tail) eq_refl) as (texts & HF & ->).
      exists ([c] :: texts). split; [constructor; [reflexivity | exact HF] | reflexivity].
    + intros (texts & HF & ->). inversion HF as [|? text ? rest Htext HF']; subst.
      cbn [item_text] in Htext. injection Htext as <-.
      rewrite (proj2 (IH (concat rest)) (ex_intro _ rest (conj HF' eq_refl))).
      reflexivity.
  - split.
    + destruct (cap_lookup n caps) as [[b e]|] eqn:Hcap; [|discriminate].
      destruct (expand items s caps) as [tail|err]; cbn [res_bind]; [|discriminate].
      intros [= <-]. destruct (proj1 (IH tail) eq_refl) as (texts & HF & ->).
      exists (slice s b e :: texts). split; [|reflexivity].
      constructor; [|exact HF]. cbn [item_text]. rewrite Hcap. reflexivity.
    + intros (texts & HF & ->). inversion HF as [|? text ? rest Htext HF']; subst.
      cbn [item_text] in Htext.
      destruct (cap_lookup n caps) as [[b e]|]; [|discriminate]. injection Htext as <-.
      rewrite (proj2 (IH (concat rest)) (ex_intro _ rest (conj HF' eq_refl))).
      reflexivity.
Qed.

Lemma expand_raises_re_error (items : list titem) (s : list ascii)
    (caps : list (nat * (nat * nat))) (e : exn) :
  expand items s caps = Raise e -> e = ReError.
Proof.
  induction items as [|[c|n] items IH]; cbn [expand]; [discriminate| |].
  - destruct (expand items s caps); cbn [res_bind]; [discriminate | auto].
  - destruct (cap_lookup n caps) as [[b e']|]; [|intros [= <-]; reflexivity].
    destruct (expand items s caps); cbn [res_bind]; [discriminate | auto].
Qed.

(** The loop has the steps it needs: it does not stop for want of them. *)
Lemma sub_loop_enough (r : regex) (items : list titem) (s : list ascii) (fuel : nat) :
  forall (i start n : nat) (out : list ascii) (e : exn),
    length s + 2 <= fuel + start ->
    start <= S (length s) ->
    sub_loop fuel r items s i start n out = Raise e ->
    e = ReError.
Proof.
  induction fuel as [|fuel IH]; intros i start n out e Hfuel Hstart; cbn [sub_loop]; [lia|].
  destruct (length s <? start)%nat eqn:Hpast; [discriminate|].
  apply Nat.ltb_ge in Hpast.
  pose proof (search_in_subject r s start Hpast) as Hsearch.
  destruct (search_from r (skipn start s) start) as [[b final]|]; [|discriminate].
  destruct Hsearch as (Hb & Hmatch & _). destruct final as [e' left_over caps].
  cbn [m_pos m_caps] in *.
  pose proof (match_at_bounds r s b e' caps ltac:(lia) Hmatch) as He.
  assert (Hnext : S start <= (if (e' =? b)%nat then S e' else e')
                  /\ (if (e' =? b)%nat then S e' else e') <= S (length s)).
  { destruct (e' =? b)%nat eqn:Heb; [apply Nat.eqb_eq in Heb | apply Nat.eqb_neq in Heb]; lia. }
  destruct ((i =? b)%nat && (i =? e')%nat && (0 <? n)%nat).
  - apply IH; lia.
  - destruct (expand items s caps) as [item|err] eqn:Hitem; cbn [res_bind].
    + apply IH; lia.
    + intros [= <-]. exact (expand_raises_re_error _ _ _ _ Hitem).
Qed.

(** [sub] returns, or raises for its template: for one the model reads
    no meaning from, or for a reference to a group that took no part in
    a match. *)
Lemma sub_returns_or_template_fails (r : regex) (repl subject : string) (e : exn) :
  sub r repl subject = Raise e ->
  parse_template (list_ascii_of_string repl) = Raise e \/ e = ReError.
Proof.
  unfold sub. destruct (parse_template (list_ascii_of_string repl)) as [items|e0];
    cbn [res_bind]; [|intros [= ->]; left; reflexivity].
  destruct (sub_loop _ r items _ 0 0 0 []) as [result|e0] eqn:Hloop; cbn [res_bind];
    [discriminate|].
  intros [= ->]. right. apply sub_loop_enough in Hloop; [exact Hloop | cbn; lia | lia].
Qed.
End MiniReSub.
(** ** The rule engine reads the configuration and nothing else *)

Section EngineFacts.
Context `{Libs}.

Lemma for_in_app {A V} (xs ys : list A) (body : A -> V -> M V) (v : V) (s : Config.t) :
  for_in (xs ++ ys) body v s = (v' <- for_in xs body v ;; for_in ys body v') s.
Proof.
  revert v s. induction xs as [|x xs IH]; intros v s; simpl.
  - reflexivity.
  - unfold bind in *. destruct (body x v s) as [[v'|e] s']; [|reflexivity].
    rewrite IH. reflexivity.
Qed.

(** The loop body is a function of the rule and the locals. *)
Lemma apply_rule_pure (r : rule) (locals : string * browser) (s s0 : Config.t) :
  apply_rule r locals s = (run (apply_rule r locals) s0, s).
Proof.
  destruct locals as [url b]. unfold apply_rule, run.
  destruct (dict_get r "url_pattern"); try reflexivity.
  unfold bind, lift, ret; simpl.
  destruct (re_compile s1) as [p|e]; [|reflexivity].
  destruct (re_search p url); [|reflexivity].
  destruct (dict_get r "url_replace"); simpl;
    try (destruct (dict_get r "browser_id"); simpl; try reflexivity;
         destruct (webbrowser_get _); reflexivity).
  destruct (re_sub p s2 url); [|reflexivity].
  destruct (dict_get r "browser_id"); simpl; try reflexivity.
  destruct (webbrowser_get _); reflexivity.
Qed.

Lemma rules_loop_pure (rs : list rule) (locals : string * browser) (s s0 : Config.t) :
  for_in rs apply_rule locals s = (run (for_in rs apply_rule locals) s0, s).
Proof.
  revert locals. induction rs as [|r rs IH]; intros locals; simpl.
  - reflexivity.
  - unfold run, bind.
    rewrite (apply_rule_pure r locals s s0), (apply_rule_pure r locals s0 s0).
    destruct (run (apply_rule r locals) s0) as [v|e]; [|reflexivity].
    exact (IH v).
Qed.

Lemma rules_loop_run (rs : list rule) (locals : string * browser) (s s0 : Config.t) :
  run (for_in rs apply_rule locals) s = run (for_in rs apply_rule locals) s0.
Proof. unfold run at 1. rewrite (rules_loop_pure rs locals s s0). reflexivity. Qed.

(** [select_and_open] spelled out: the default browser is looked up,
    the rules are run, the URL is opened; the store is as it was. *)
Lemma select_and_open_unfold (url : string) (cfg : Config.t) :
  select_and_open url cfg =
    (res_bind (webbrowser_get (Config.browser_default cfg)) (fun b0 =>
       res_bind (run (for_in (Config.rules cfg) apply_rule (url, b0)) cfg)
         (fun locals => log_and_open (snd locals) (fst locals))),
     cfg).
Proof.
  unfold select_and_open, bind, gets, lift, ret; simpl.
  destruct (webbrowser_get _) as [b0|e]; [|reflexivity]. simpl.
  rewrite (rules_loop_pure _ _ cfg cfg).
  destruct (run _ cfg); reflexivity.
Qed.

Lemma select_and_open_evaluate (url : string) (cfg : Config.t) :
  run (select_and_open url) cfg =
    res_bind (evaluate url cfg) (fun locals => log_and_open (snd locals) (fst locals)).
Proof.
  unfold run, evaluate. rewrite select_and_open_unfold. cbn [fst].
  destruct (webbrowser_get _); reflexivity.
Qed.

(** A run that opened a URL went through the lines after the loop. *)
Lemma log_and_open_ret (b b' : browser) (url url' : string) :
  log_and_open b url = Ret (b', url') -> b' = b /\ url' = url.
Proof.
  unfold log_and_open.
  destruct (browser_name b); cbn [res_bind]; [|discriminate].
  destruct (browser_args b); cbn [res_bind]; [|discriminate].
  destruct (open_new_tab b url); cbn [res_bind]; [|discriminate].
  intros [= <- <-]. split; reflexivity.
Qed.

Lemma select_and_open_store (url : string) (cfg : Config.t) :
  snd (select_and_open url cfg) = cfg.
Proof. rewrite select_and_open_unfold. reflexivity. Qed.

Lemma open_all_store (args : list string) (cfg : Config.t) :
  forall opened, snd (for_in args
    (fun arg opened => o <- select_and_open arg ;; ret (opened ++ [o])%list) opened cfg) = cfg.
Proof.
  induction args as [|arg args IH]; intros opened; simpl; [reflexivity|].
  unfold bind at 1 2. rewrite select_and_open_unfold.
  destruct (res_bind _ _) as [o|e]; simpl; [apply IH | reflexivity].
Qed.
End EngineFacts.

(** ** One rule *)

Section RuleFacts.
Context `{Libs}.

Lemma rules_loop_cons (r : rule) (rs : list rule) (locals : string * browser) (s : Config.t) :
  run (for_in (r :: rs) apply_rule locals) s =
    res_bind (run (apply_rule r locals) s)
      (fun locals' => run (for_in rs apply_rule locals') s).
Proof.
  unfold run at 1; simpl. unfold bind.
  rewrite (apply_rule_pure r locals s s).
  destruct (run (apply_rule r locals) s); reflexivity.
Qed.

Lemma rules_loop_app (pre post : list rule) (locals : string * browser) (s : Config.t) :
  run (for_in (pre ++ post) apply_rule locals) s =
    res_bind (run (for_in pre apply_rule locals) s)
      (fun locals' => run (for_in post apply_rule locals') s).
Proof.
  unfold run at 1. rewrite for_in_app. unfold bind.
  rewrite (rules_loop_pure pre locals s s).
  destruct (run (for_in pre apply_rule locals) s); reflexivity.
Qed.

(** A rule without a string pattern is passed over. *)
Lemma apply_rule_skip (r : rule) (locals : string * browser) (s : Config.t) :
  is_basestring (dict_get r "url_pattern") = false ->
  run (apply_rule r locals) s = Ret locals.
Proof.
  destruct locals as [url b]. unfold run, apply_rule.
  destruct (dict_get r "url_pattern"); simpl; intros Hs; try reflexivity; discriminate.
Qed.

(** A pattern that does not compile stops the evaluation. *)
Lemma apply_rule_bad_pattern (r : rule) (pat : string) (e : exn)
      (locals : string * browser) (s : Config.t) :
  dict_get r "url_pattern" = PyStr pat ->
  re_compile pat = Raise e ->
  run (apply_rule r locals) s = Raise e.
Proof.
  destruct locals as [url b]. unfold run, apply_rule. intros -> Hc.
  unfold bind, lift. rewrite Hc. reflexivity.
Qed.

Lemma apply_rule_miss (r : rule) (pat : string) (p : pattern)
      (url : string) (b : browser) (s : Config.t) :
  dict_get r "url_pattern" = PyStr pat ->
  re_compile pat = Ret p ->
  re_search p url = false ->
  run (apply_rule r (url, b)) s = Ret (url, b).
Proof.
  unfold run, apply_rule. intros -> Hc Hs.
  unfold bind, lift. rewrite Hc, Hs. reflexivity.
Qed.

Lemma apply_rule_hit (r : rule) (pat : string) (p : pattern)
      (url : string) (b : browser) (s : Config.t) :
  dict_get r "url_pattern" = PyStr pat ->
  re_compile pat = Ret p ->
  re_search p url = true ->
  run (apply_rule r (url, b)) s =
    res_bind (match dict_get r "url_replace" with
              | PyStr repl => re_sub p repl url
              | _ => Ret url
              end)
      (fun url' => res_bind (choose_browser r b) (fun b' => Ret (url', b'))).
Proof.
  unfold run, apply_rule, choose_browser. intros -> Hc Hs.
  unfold bind, lift, ret. rewrite Hc, Hs.
  destruct (dict_get r "url_replace"); simpl;
    try (destruct (dict_get r "browser_id"); simpl; try reflexivity;
         destruct (webbrowser_get _); reflexivity).
  destruct (re_sub p s0 url); simpl; [|reflexivity].
  destruct (dict_get r "browser_id"); simpl; try reflexivity.
  destruct (webbrowser_get _); reflexivity.
Qed.

Lemma misses_spec (url : string) (r : rule) (b : browser) (s : Config.t) :
  misses url r = true ->
  run (apply_rule r (url, b)) s = Ret (url, b).
Proof.
  unfold misses. intros Hm.
  destruct (dict_get r "url_pattern") eqn:Hp;
    try (apply apply_rule_skip; rewrite Hp; reflexivity).
  destruct (re_compile s0) as [p|e] eqn:Hc; [|discriminate].
  apply (apply_rule_miss r s0 p); auto.
  destruct (re_search p url); [discriminate | reflexivity].
Qed.

Lemma rules_loop_all_miss (rs : list rule) (url : string) (b : browser) (s : Config.t) :
  forallb (misses url) rs = true ->
  run (for_in rs apply_rule (url, b)) s = Ret (url, b).
Proof.
  induction rs as [|r rs IH]; intros Hall; [reflexivity|].
  simpl in Hall. apply andb_prop in Hall as [Hr Hrs].
  rewrite rules_loop_cons, (misses_spec _ _ _ _ Hr). simpl. auto.
Qed.
End RuleFacts.

(** ** What the rules leave in the locals *)

Section LastMatch.
Context `{Libs}.

(** What a rule that is evaluated without an exception leaves in the
    locals. *)
Lemma apply_rule_ret (r : rule) (url url' : string) (b0 b : browser) (s : Config.t) :
  run (apply_rule r (url, b0)) s = Ret (url', b) ->
  url' = rewritten r url
  /\ match (if matches r url
            then match dict_get r "browser_id" with PyStr id => [id] | _ => [] end
            else []) with
     | id :: _ => webbrowser_get (PyStr id) = Ret b
     | [] => b = b0
     end.
Proof.
  unfold rewritten, matches, compiled.
  destruct (dict_get r "url_pattern") as [| | | |pat| | |] eqn:Hp;
    try (rewrite apply_rule_skip by (rewrite Hp; reflexivity);
         intros [= <- <-]; split; reflexivity).
  destruct (re_compile pat) as [p|e] eqn:Hc.
  - destruct (re_search p url) eqn:Hs.
    + rewrite (apply_rule_hit r pat p) by assumption. unfold choose_browser.
      assert (Hurl : forall u,
                 match dict_get r "url_replace" with
                 | PyStr repl => re_sub p repl url
                 | _ => Ret url
                 end = Ret u ->
                 u = match dict_get r "url_replace" with
                     | PyStr repl =>
                         match re_sub p repl url with Ret url' => url' | Raise _ => url end
                     | _ => url
                     end).
      { intros u. destruct (dict_get r "url_replace") as [| | | |repl| | |];
          try (intros [= <-]; reflexivity).
        destruct (re_sub p repl url); [intros [= <-]; reflexivity | discriminate]. }
      destruct (match dict_get r "url_replace" with PyStr repl => _ | _ => _ end)
        as [u|e] eqn:Hu; cbn [res_bind]; [|discriminate].
      specialize (Hurl u eq_refl).
      destruct (dict_get r "browser_id") as [| | | |id| | |]; cbn [res_bind];
        try (intros [= <- <-]; split; [exact Hurl | reflexivity]).
      destruct (webbrowser_get (PyStr id)) eqn:Hg; cbn [res_bind]; [|discriminate].
      intros [= <- <-]. split; [exact Hurl | reflexivity].
    + rewrite (apply_rule_miss r pat p) by assumption.
      intros [= <- <-]. split; [|reflexivity].
      destruct (dict_get r "url_replace"); reflexivity.
  - rewrite (apply_rule_bad_pattern r pat e) by assumption. discriminate.
Qed.

Lemma rules_loop_browser (rs : list rule) :
  forall (url url' : string) (b0 b : browser) (s : Config.t),
    run (for_in rs apply_rule (url, b0)) s = Ret (url', b) ->
    match last (chosen_ids rs url) with
    | Some id => webbrowser_get (PyStr id) = Ret b
    | None => b = b0
    end.
Proof.
  induction rs as [|r rs IH]; intros url url' b0 b s.
  - unfold run; simpl. intros [= <- <-]. reflexivity.
  - rewrite rules_loop_cons.
    destruct (run (apply_rule r (url, b0)) s) as [[url1 b1]|e] eqn:Hr;
      cbn [res_bind]; [|discriminate].
    intros Hrest. apply apply_rule_ret in Hr as [-> Hb1].
    specialize (IH _ _ _ _ _ Hrest).
    cbn [chosen_ids]. rewrite last_app.
    destruct (last (chosen_ids rs (rewritten r url))) as [id|]; [exact IH|].
    subst b.
    destruct (if matches r url then _ else _) as [|id [|id' ids]] eqn:Hids;
      cbn [last]; try exact Hb1.
    destruct (matches r url); [|discriminate].
    destruct (dict_get r "browser_id"); discriminate.
Qed.
(** The URL opened is the input passed through the rules in order, each
    rule seeing what the rules before it left. *)
Lemma rules_loop_url (rs : list rule) :
  forall (url url' : string) (b0 b : browser) (s : Config.t),
    run (for_in rs apply_rule (url, b0)) s = Ret (url', b) ->
    url' = foldl (fun current r => rewritten r current) url rs.
Proof.
  induction rs as [|r rs IH]; intros url url' b0 b s.
  - unfold run; simpl. intros [= <- <-]. reflexivity.
  - rewrite rules_loop_cons.
    destruct (run (apply_rule r (url, b0)) s) as [[url1 b1]|e] eqn:Hr;
      cbn [res_bind]; [|discriminate].
    intros Hrest. apply apply_rule_ret in Hr as [-> _].
    cbn [foldl]. exact (IH _ _ _ _ _ Hrest).
Qed.
Lemma evaluate_app (url : string) (d : pyval) (pre post : list rule) :
  evaluate url (Config.mk d (pre ++ post)) =
    res_bind (evaluate url (Config.mk d pre)) (fun locals =>
      run (for_in post apply_rule locals) (Config.mk d pre)).
Proof.
  unfold evaluate. cbn [Config.browser_default Config.rules].
  destruct (webbrowser_get d) as [b0|e]; cbn [res_bind]; [|reflexivity].
  rewrite rules_loop_app, (rules_loop_run pre _ _ (Config.mk d pre)).
  destruct (run (for_in pre apply_rule (url, b0)) (Config.mk d pre)) as [locals|e];
    cbn [res_bind]; [|reflexivity].
  apply rules_loop_run.
Qed.

Lemma evaluate_snoc (url : string) (d : pyval) (pre : list rule) (r : rule) :
  evaluate url (Config.mk d (pre ++ [r])) =
    res_bind (evaluate url (Config.mk d pre)) (fun locals =>
      run (apply_rule r locals) (Config.mk d pre)).
Proof.
  rewrite evaluate_app.
  destruct (evaluate url (Config.mk d pre)) as [locals|e]; cbn [res_bind]; [|reflexivity].
  rewrite rules_loop_cons.
  destruct (run (apply_rule r locals) (Config.mk d pre)); reflexivity.
Qed.
End LastMatch.

(** ** The claims about the rule engine *)

(** C9. Evaluating the rule engine leaves the ruleset as it was: after
    [select_and_open] the configuration object (the rule list, every
    field of every rule, the default browser) equals the one before the
    call, also after a whole list of URLs; so a resolution that follows
    another gives what it gives alone, and each URL of a list is
    resolved as it is alone. *)
Theorem rule_engine_reads_only `{Libs} (url : string) (cfg : Config.t) :
  snd (select_and_open url cfg) = cfg
  /\ (forall args, snd (open_all args cfg) = cfg)
  /\ (forall url', run (select_and_open url') (snd (select_and_open url cfg))
                  = run (select_and_open url') cfg)
  /\ (forall args opened, run (open_all args) cfg = Ret opened ->
        Forall2 (fun arg o => run (select_and_open arg) cfg = Ret o) args opened).
Proof.
  split; [apply select_and_open_store|].
  split; [intros args; apply open_all_store|].
  split; [intros url'; rewrite select_and_open_store; reflexivity|].
  intros args. unfold open_all.
  enough (Hgen : forall done opened,
             run (for_in args (fun arg opened => o <- select_and_open arg ;; ret (opened ++ [o])%list)
                    done) cfg = Ret opened ->
             exists rest, opened = (done ++ rest)%list /\
                          Forall2 (fun arg o => run (select_and_open arg) cfg = Ret o) args rest).
  { intros opened Hrun. destruct (Hgen [] opened Hrun) as (rest & -> & HF). exact HF. }
  induction args as [|arg args IH]; intros done opened; unfold run; simpl.
  - intros [= <-]. exists []. rewrite app_nil_r. split; [reflexivity | constructor].
  - unfold bind at 1 2. rewrite select_and_open_unfold.
    destruct (res_bind _ _) as [o|e] eqn:Ho; simpl; [|discriminate].
    intros Hrun. destruct (IH _ _ Hrun) as (rest & -> & HF).
    exists (o :: rest). split.
    + rewrite <- app_assoc. reflexivity.
    + constructor; [|exact HF]. unfold run. rewrite select_and_open_unfold. exact Ho.
Qed.

(** Two URLs resolved one after the other against the same rules. *)
Lemma rule_engine_reads_only_witness :
  run (open_all ["https://github.com/x"; "http://example.com/"])
      (safari [github_rule; firefox_rule])
    = Ret [("chrome", "https://github.com/x"); ("firefox", "http://example.com/")]
  /\ snd (open_all ["https://github.com/x"; "http://example.com/"]
            (safari [github_rule; firefox_rule]))
     = safari [github_rule; firefox_rule]
  /\ Forall2 (fun arg o => run (select_and_open arg) (safari [github_rule; firefox_rule]) = Ret o)
       ["https://github.com/x"; "http://example.com/"]
       [("chrome", "https://github.com/x"); ("firefox", "http://example.com/")].
Proof.
  split; [vm_compute; reflexivity|].
  pose proof (@rule_engine_reads_only example_libs "https://github.com/x"
                (safari [github_rule; firefox_rule])) as (_ & Hstore & _ & Heach).
  split; [apply Hstore|].
  apply Heach. vm_compute; reflexivity.
Defined.

(** C3, as the code has it. If every rule either has no string pattern
    or has one that compiles and is not found in the URL, resolution
    looks the configured default browser up and opens the input URL,
    unchanged, with it: the result is that browser and that URL when
    the lookup and the lines after the loop (the reads of the
    controller's [name] and [args], [open_new_tab]) do not raise.  So
    it is for the empty rule list. *)
Theorem no_match_opens_default `{Libs} (url : string) (cfg : Config.t) :
  (forallb (misses url) (Config.rules cfg) = true ->
   select_and_open url cfg =
     (res_bind (webbrowser_get (Config.browser_default cfg)) (fun b => log_and_open b url), cfg))
  /\ select_and_open url (Config.mk (Config.browser_default cfg) []) =
       (res_bind (webbrowser_get (Config.browser_default cfg)) (fun b => log_and_open b url),
        Config.mk (Config.browser_default cfg) [])
  /\ (forall b url',
        forallb (misses url) (Config.rules cfg) = true ->
        run (select_and_open url) cfg = Ret (b, url') ->
        webbrowser_get (Config.browser_default cfg) = Ret b /\ url' = url).
Proof.
  assert (Hgen : forall c : Config.t,
             forallb (misses url) (Config.rules c) = true ->
             select_and_open url c =
               (res_bind (webbrowser_get (Config.browser_default c))
                  (fun b => log_and_open b url), c)).
  { intros c Hall. rewrite select_and_open_unfold. f_equal.
    destruct (webbrowser_get _) as [b0|e]; simpl; [|reflexivity].
    rewrite (rules_loop_all_miss _ _ _ _ Hall). reflexivity. }
  split; [apply Hgen|].
  split; [apply (Hgen (Config.mk (Config.browser_default cfg) [])); reflexivity|].
  intros b url' Hall. unfold run. rewrite (Hgen cfg Hall). cbn [fst].
  destruct (webbrowser_get (Config.browser_default cfg)) as [b0|e]; cbn [res_bind];
    [|discriminate].
  intros Hopen. apply log_and_open_ret in Hopen as [-> ->]. split; reflexivity.
Qed.

Lemma no_match_opens_default_witness :
  forallb (misses "https://example.org/x") (Config.rules (safari [github_rule; https_rule])) = true
  /\ select_and_open "https://example.org/x" (safari [github_rule; https_rule]) =
       (Ret ("safari", "https://example.org/x"), safari [github_rule; https_rule]).
Proof.
  split; [vm_compute; reflexivity|].
  rewrite (proj1 (@no_match_opens_default example_libs "https://example.org/x"
                    (safari [github_rule; https_rule])));
    vm_compute; reflexivity.
Defined.

(** C3 fails on the code: the pattern of the only rule matches nothing,
    being no regular expression, and no URL is opened; and with no rule
    at all, a default browser whose controller has no [name] is never
    asked to open the URL. *)
Lemma no_match_does_not_open_default :
  (forallb (fun r => negb (matches r "http://example.com/"))
           (Config.rules (safari [broken_rule])) = true
   /\ run (select_and_open "http://example.com/") (safari [broken_rule]) = Raise ReError)
  /\ @run (@browser libs_without_names * string)
          (@select_and_open libs_without_names "http://example.com/") (safari [])
     = Raise AttributeError.
Proof. repeat split; vm_compute; reflexivity. Qed.




(** C10. A rule whose pattern is found in the URL current when it is
    evaluated applies its two effects each on its own, and each only
    when its field is a string: with a [url_replace] that is not a
    string the URL stays the one the rules before left while a string
    [browser_id] still chooses the browser; with a [browser_id] that is
    not a string the browser stays the one the rules before selected
    while a string [url_replace] still rewrites the URL; with neither a
    string the rule changes nothing. *)
Theorem matching_rule_effects_independent `{Libs} (url : string) (d : pyval)
    (pre : list rule) (r : rule) (pat : string) (p : pattern)
    (current : string) (selected : browser) :
  evaluate url (Config.mk d pre) = Ret (current, selected) ->
  dict_get r "url_pattern" = PyStr pat ->
  re_compile pat = Ret p ->
  re_search p current = true ->
  (forall id,
     is_basestring (dict_get r "url_replace") = false ->
     dict_get r "browser_id" = PyStr id ->
     evaluate url (Config.mk d (pre ++ [r])) =
       res_bind (webbrowser_get (PyStr id)) (fun b => Ret (current, b))
     /\ run (select_and_open url) (Config.mk d (pre ++ [r])) =
          res_bind (webbrowser_get (PyStr id)) (fun b => log_and_open b current))
  /\ (forall repl,
     dict_get r "url_replace" = PyStr repl ->
     is_basestring (dict_get r "browser_id") = false ->
     evaluate url (Config.mk d (pre ++ [r])) =
       res_bind (re_sub p repl current) (fun url' => Ret (url', selected))
     /\ run (select_and_open url) (Config.mk d (pre ++ [r])) =
          res_bind (re_sub p repl current) (fun url' => log_and_open selected url'))
  /\ (is_basestring (dict_get r "url_replace") = false ->
     is_basestring (dict_get r "browser_id") = false ->
     evaluate url (Config.mk d (pre ++ [r])) = Ret (current, selected)
     /\ run (select_and_open url) (Config.mk d (pre ++ [r])) = log_and_open selected current).
Proof.
  intros Hpre Hpat Hc Hs.
  assert (Hrun : evaluate url (Config.mk d (pre ++ [r])) =
            res_bind (match dict_get r "url_replace" with
                      | PyStr repl => re_sub p repl current
                      | _ => Ret current
                      end)
              (fun url' => res_bind (choose_browser r selected) (fun b' => Ret (url', b')))).
  { rewrite evaluate_snoc, Hpre. cbn [res_bind].
    apply (apply_rule_hit r pat p); assumption. }
  unfold choose_browser in Hrun. split; [|split].
  - intros id Hrepl Hid. rewrite select_and_open_evaluate, Hrun, Hid.
    destruct (dict_get r "url_replace"); try discriminate; cbn [res_bind];
      (split; [reflexivity | destruct (webbrowser_get (PyStr id)); reflexivity]).
  - intros repl Hrepl Hid. rewrite select_and_open_evaluate, Hrun, Hrepl.
    destruct (dict_get r "browser_id"); try discriminate;
      (split; [reflexivity | destruct (re_sub p repl current); reflexivity]).
  - intros Hrepl Hid. rewrite select_and_open_evaluate, Hrun.
    destruct (dict_get r "url_replace"); try discriminate;
      destruct (dict_get r "browser_id"); try discriminate; split; reflexivity.
Qed.

(** The rule in front selects firefox; the rule evaluated after it
    rewrites the URL and holds a number for a browser. *)
Lemma matching_rule_effects_independent_witness :
  evaluate "http://example.com/" (safari [firefox_rule]) = Ret ("http://example.com/", "firefox")
  /\ dict_get odd_browser_rule "url_pattern" = PyStr "http:"
  /\ re_compile "http:" = Ret (regex_of "http:")
  /\ re_search (regex_of "http:") "http://example.com/" = true
  /\ run (select_and_open "http://example.com/") (safari ([firefox_rule] ++ [odd_browser_rule]))
       = Ret ("firefox", "https://example.com/").
Proof.
  split; [vm_compute; reflexivity|].
  split; [vm_compute; reflexivity|].
  split; [vm_compute; reflexivity|].
  split; [vm_compute; reflexivity|].
  unfold safari.
  rewrite (proj2 (proj1 (proj2 (@matching_rule_effects_independent example_libs
                    "http://example.com/" (PyStr "safari") [firefox_rule] odd_browser_rule
                    "http:" (regex_of "http:") "http://example.com/" "firefox"
                    ltac:(vm_compute; reflexivity) ltac:(vm_compute; reflexivity)
                    ltac:(vm_compute; reflexivity) ltac:(vm_compute; reflexivity)))
                  "https:" ltac:(vm_compute; reflexivity) ltac:(vm_compute; reflexivity)));
    vm_compute; reflexivity.
Defined.

(** C4. Rewriting is sequential and cumulative.  The URL opened is the
    input passed through the rules in stored order, each rule being
    matched against, and rewriting, the URL the rules before it left.
    So when rule A matches the URL and rewrites it to [url1], and rule B
    matches [url1] and rewrites it to [url2], the URL opened is [url2],
    B's substitution applied to A's output, opened with the browser the
    default and the two rules choose in turn. *)
Theorem rewrites_compose `{Libs} (url : string) (d : pyval) :
  (forall (rules : list rule) (b : browser) (url' : string),
      run (select_and_open url) (Config.mk d rules) = Ret (b, url') ->
      url' = foldl (fun current r => rewritten r current) url rules)
  /\ (forall (ruleA ruleB : rule) (patA replA patB replB : string) (pA pB : pattern)
        (url1 url2 : string),
      dict_get ruleA "url_pattern" = PyStr patA ->
      dict_get ruleA "url_replace" = PyStr replA ->
      re_compile patA = Ret pA ->
      re_search pA url = true ->
      re_sub pA replA url = Ret url1 ->
      dict_get ruleB "url_pattern" = PyStr patB ->
      dict_get ruleB "url_replace" = PyStr replB ->
      re_compile patB = Ret pB ->
      re_search pB url1 = true ->
      re_sub pB replB url1 = Ret url2 ->
      run (select_and_open url) (Config.mk d [ruleA; ruleB]) =
        res_bind (webbrowser_get d) (fun b0 =>
          res_bind (choose_browser ruleA b0) (fun b1 =>
            res_bind (choose_browser ruleB b1) (fun b2 => log_and_open b2 url2)))).
Proof.
  split.
  - intros rules b url'. unfold run. rewrite select_and_open_unfold.
    cbn [fst Config.browser_default Config.rules].
    destruct (webbrowser_get d) as [b0|e0]; cbn [res_bind]; [|discriminate].
    destruct (run (for_in rules apply_rule (url, b0)) (Config.mk d rules))
      as [[u bb]|e] eqn:Hl; cbn [res_bind fst snd]; [|discriminate].
    intros Hopen. apply log_and_open_ret in Hopen as [-> ->].
    exact (rules_loop_url _ _ _ _ _ _ Hl).
  - intros ruleA ruleB patA replA patB replB pA pB url1 url2
           HpA HrA HcA HsA HuA HpB HrB HcB HsB HuB.
    unfold run. rewrite select_and_open_unfold.
    cbn [fst Config.browser_default Config.rules].
    destruct (webbrowser_get d) as [b0|e0]; cbn [res_bind]; [|reflexivity].
    rewrite rules_loop_cons, (apply_rule_hit ruleA patA pA) by assumption.
    rewrite HrA, HuA. cbn [res_bind].
    destruct (choose_browser ruleA b0) as [b1|e1]; cbn [res_bind]; [|reflexivity].
    rewrite rules_loop_cons, (apply_rule_hit ruleB patB pB) by assumption.
    rewrite HrB, HuB. cbn [res_bind].
    destruct (choose_browser ruleB b1) as [b2|e2]; reflexivity.
Qed.

Lemma rewrites_compose_witness :
  (dict_get upgrade_rule "url_pattern" = PyStr "http:"
   /\ dict_get upgrade_rule "url_replace" = PyStr "https:"
   /\ re_compile "http:" = Ret (regex_of "http:")
   /\ re_search (regex_of "http:") "http://www.example.com/a" = true
   /\ re_sub (regex_of "http:") "https:" "http://www.example.com/a"
        = Ret "https://www.example.com/a"
   /\ dict_get mirror_rule "url_pattern" = PyStr "https://(www\.)?example"
   /\ dict_get mirror_rule "url_replace" = PyStr "https://mirror.example"
   /\ re_compile "https://(www\.)?example" = Ret (regex_of "https://(www\.)?example")
   /\ re_search (regex_of "https://(www\.)?example") "https://www.example.com/a" = true
   /\ re_sub (regex_of "https://(www\.)?example") "https://mirror.example"
        "https://www.example.com/a" = Ret "https://mirror.example.com/a")
  /\ re_search (regex_of "https://(www\.)?example") "http://www.example.com/a" = false
  /\ run (select_and_open "http://www.example.com/a") (safari [upgrade_rule; mirror_rule])
       = Ret ("firefox", "https://mirror.example.com/a").
Proof.
  split; [repeat split; vm_compute; reflexivity|].
  split; [vm_compute; reflexivity|].
  apply (proj2 (@rewrites_compose example_libs "http://www.example.com/a" (PyStr "safari"))
           upgrade_rule mirror_rule "http:" "https:" "https://(www\.)?example"
           "https://mirror.example" (regex_of "http:") (regex_of "https://(www\.)?example")
           "https://www.example.com/a" "https://mirror.example.com/a");
    vm_compute; reflexivity.
Defined.

(** C8. When a rule with a string pattern and a string template
    matches the URL current when it is evaluated, the URL becomes what
    [sub] makes of it.  In the model of the library, what [sub]
    returns is the subject with every occurrence of the pattern
    replaced, from the first on: the text between occurrences is
    copied, each occurrence is replaced by the template expanded with
    the groups of that occurrence, and nothing the pattern matches is
    left in the copied text (but an empty occurrence right where a
    replaced one ended); no other text answers this description, and
    [sub] raises only for its template.  The expanded template is its
    items in order, a literal character as itself and a reference to a
    group as the part of the subject that group matched.
    For the documentation's rule [https_rule], whose template refers to
    the group of its pattern, the URL [redirect:http://example.com] is
    opened as [redirect:https://example.com] with the default browser;
    where the pattern of [upgrade_rule] occurs twice, both occurrences
    are replaced; and a pattern of one plain character with a template
    without escapes replaces every occurrence of the character and
    nothing else. *)
Theorem matching_rule_rewrites_url :
  (forall (L : Libs) (url : string) (d : pyval) (pre : list rule) (r : rule)
          (pat repl : string) (p : pattern) (current : string) (selected : browser),
      evaluate url (Config.mk d pre) = Ret (current, selected) ->
      dict_get r "url_pattern" = PyStr pat ->
      dict_get r "url_replace" = PyStr repl ->
      re_compile pat = Ret p ->
      re_search p current = true ->
      evaluate url (Config.mk d (pre ++ [r])) =
        res_bind (re_sub p repl current) (fun url' =>
          res_bind (choose_browser r selected) (fun b => Ret (url', b)))
      /\ run (select_and_open url) (Config.mk d (pre ++ [r])) =
           res_bind (re_sub p repl current) (fun url' =>
             res_bind (choose_browser r selected) (fun b => log_and_open b url')))
  /\ (forall (r : MiniRe.regex) (repl subject out : string),
        MiniRe.sub r repl subject = Ret out ->
        exists items,
          MiniRe.parse_template (list_ascii_of_string repl) = Ret items
          /\ replaced_from r items (list_ascii_of_string subject) false 0
                           (list_ascii_of_string out)
          /\ forall other,
               replaced_from r items (list_ascii_of_string subject) false 0 other ->
               other = list_ascii_of_string out)
  /\ (forall (r : MiniRe.regex) (repl subject : string) (e : exn),
        MiniRe.sub r repl subject = Raise e ->
        MiniRe.parse_template (list_ascii_of_string repl) = Raise e \/ e = ReError)
  /\ (forall (items : list MiniRe.titem) (subject : list ascii)
             (caps : list (nat * (nat * nat))) (out : list ascii),
        MiniRe.expand items subject caps = Ret out ->
        exists texts,
          Forall2 (fun item text => item_text subject caps item = Some text) items texts
          /\ out = concat texts)
  /\ (forall d : string,
        run (select_and_open "redirect:http://example.com") (Config.mk (PyStr d) [https_rule])
          = Ret (d, "redirect:https://example.com"))
  /\ run (select_and_open "http://a.example/?next=http://b.example/") (safari [upgrade_rule])
       = Ret ("safari", "https://a.example/?next=https://b.example/")
  /\ (forall (c : ascii) (repl url : string),
        plain_char c = true ->
        plain_template (list_ascii_of_string repl) = true ->
        res_bind (MiniRe.compile (String c EmptyString)) (fun p => MiniRe.sub p repl url)
          = Ret (string_of_list_ascii
                   (replace_char c (list_ascii_of_string repl) (list_ascii_of_string url)))).
Proof.
  split.
  { intros L url d pre r pat repl p current selected Hpre Hpat Hrepl Hc Hs.
    assert (Heval : evaluate url (Config.mk d (pre ++ [r])) =
              res_bind (re_sub p repl current) (fun url' =>
                res_bind (choose_browser r selected) (fun b => Ret (url', b)))).
    { rewrite evaluate_snoc, Hpre. cbn [res_bind].
      rewrite (apply_rule_hit r pat p) by assumption. rewrite Hrepl. reflexivity. }
    split; [exact Heval|].
    rewrite select_and_open_evaluate, Heval.
    destruct (re_sub p repl current) as [url'|e]; cbn [res_bind]; [|reflexivity].
    destruct (choose_browser r selected); reflexivity. }
  split.
  { intros r repl subject out Hsub.
    destruct (MiniReSub.sub_replaces_every_occurrence r repl subject out Hsub)
      as (items & Hitems & Hreplaced).
    exists items. split; [exact Hitems|]. split; [exact Hreplaced|].
    intros other Hother.
    exact (MiniReSub.replaced_from_unique _ _ _ _ _ _ _ Hother Hreplaced). }
  split; [exact MiniReSub.sub_returns_or_template_fails|].
  split; [intros items subject caps out; apply MiniReSub.expand_spec|].
  split; [intros d; vm_compute; reflexivity|].
  split; [vm_compute; reflexivity | exact MiniReFacts.sub_char_everywhere].
Qed.

(** The rule in front rewrites the URL; the rule evaluated after it
    matches what that left and rewrites it again. *)
Lemma matching_rule_rewrites_url_witness :
  evaluate "http://www.example.com/a" (safari [upgrade_rule])
    = Ret ("https://www.example.com/a", "safari")
  /\ dict_get mirror_rule "url_pattern" = PyStr "https://(www\.)?example"
  /\ dict_get mirror_rule "url_replace" = PyStr "https://mirror.example"
  /\ re_compile "https://(www\.)?example" = Ret (regex_of "https://(www\.)?example")
  /\ re_search (regex_of "https://(www\.)?example") "https://www.example.com/a" = true
  /\ run (select_and_open "http://www.example.com/a") (safari ([upgrade_rule] ++ [mirror_rule]))
       = Ret ("firefox", "https://mirror.example.com/a").
Proof.
  split; [vm_compute; reflexivity|].
  split; [vm_compute; reflexivity|].
  split; [vm_compute; reflexivity|].
  split; [vm_compute; reflexivity|].
  split; [vm_compute; reflexivity|].
  unfold safari.
  rewrite (proj2 (proj1 matching_rule_rewrites_url example_libs
             "http://www.example.com/a" (PyStr "safari") [upgrade_rule] mirror_rule
             "https://(www\.)?example" "https://mirror.example"
             (regex_of "https://(www\.)?example") "https://www.example.com/a" "safari"
             ltac:(vm_compute; reflexivity) ltac:(vm_compute; reflexivity)
             ltac:(vm_compute; reflexivity) ltac:(vm_compute; reflexivity)
             ltac:(vm_compute; reflexivity)));
    vm_compute; reflexivity.
Defined.



(** ** The loader *)

Section LoaderFacts.
Context `{Host}.

(** One key of a mapping entry: the value is stored, a missing key is
    passed over. *)
Lemma keys_loop_mapping (items : list (pyval * pyval)) (ks : list string) :
  forall (r0 : rule) (s : Config.t),
    for_in ks
      (fun k (r : rule) =>
         try_except (v <- lift (getitem (PyDict items) k) ;; ret (<[k := v]> r))
                    [KeyError] (ret r))
      r0 s
    = (Ret (picked items ks r0), s).
Proof.
  induction ks as [|k ks IH]; intros r0 s; [reflexivity|].
  cbn [for_in picked foldl]. unfold bind at 1.
  unfold try_except, bind, lift, ret, getitem.
  destruct (dict_lookup k items) as [v|]; cbn; apply IH.
Qed.

(** An entry that is not a mapping raises at the first key, and the
    handler around the key does not catch it. *)
Lemma load_rule_not_mapping (r_data : pyval) (s : Config.t) :
  is_mapping r_data = false ->
  load_rule r_data tt s = (Raise TypeError, s).
Proof.
  destruct r_data; intros Hm; try discriminate; try reflexivity.
  destruct items as [|item [|item' items]]; reflexivity.
Qed.

Lemma load_rule_mapping (items : list (pyval * pyval)) (s : Config.t) :
  load_rule (PyDict items) tt s =
    (Ret tt,
     Config.mk (Config.browser_default s)
       (Config.rules s ++
          (if (0 <? size (picked items keys ∅))%nat then [picked items keys ∅] else []))%list).
Proof.
  unfold load_rule. unfold bind at 1. unfold lift at 1. cbn [percent_s].
  unfold bind at 1. rewrite keys_loop_mapping.
  destruct (0 <? size (picked items keys ∅))%nat; unfold modify, ret; cbn.
  - reflexivity.
  - rewrite app_nil_r. destruct s; reflexivity.
Qed.

(** The loop over the entries, spelled out. *)
Lemma rules_loop_spec (entries : list pyval) :
  forall s : Config.t,
    for_in entries load_rule tt s =
      (if forallb is_mapping entries then Ret tt else Raise TypeError,
       Config.mk (Config.browser_default s) (Config.rules s ++ appended entries)%list).
Proof.
  induction entries as [|e entries IH]; intros s.
  - cbn. rewrite app_nil_r. destruct s; reflexivity.
  - cbn [for_in forallb]. unfold bind.
    destruct (is_mapping e) eqn:Hm.
    + destruct e; try discriminate. rewrite load_rule_mapping, IH.
      cbn [appended Config.browser_default Config.rules andb].
      rewrite <- app_assoc. reflexivity.
    + rewrite load_rule_not_mapping by exact Hm. cbn [andb].
      destruct e; try discriminate; cbn [appended]; rewrite app_nil_r;
        destruct s; reflexivity.
Qed.
End LoaderFacts.

Section LoadFromFile.
Context `{Host}.

(** The part of [load_from_file] after the document was read. *)
Lemma fit_data_spec (doc : pyval) (s : Config.t) :
  (try_except
     (basic <- lift (getitem doc "basic") ;;
      v <- lift (getitem basic "browser_id") ;;
      modify (fun self => Config.mk v (Config.rules self)))
     [KeyError; TypeError]
     (ret tt) ;;;
   try_except
     (rules_data <- lift (getitem doc "rules") ;;
      lift (percent_s rules_data) ;;;
      entries <- lift (py_iter rules_data) ;;
      for_in entries load_rule tt)
     [KeyError; TypeError]
     (ret tt)) s
  = (Ret tt,
     Config.mk (default (Config.browser_default s) (basic_browser_id doc))
               (Config.rules s ++ appended (visited doc))%list).
Proof.
  assert (Hrules : forall s1 : Config.t,
             try_except
               (rules_data <- lift (getitem doc "rules") ;;
                lift (percent_s rules_data) ;;;
                entries <- lift (py_iter rules_data) ;;
                for_in entries load_rule tt)
               [KeyError; TypeError] (ret tt) s1
             = (Ret tt, Config.mk (Config.browser_default s1)
                          (Config.rules s1 ++ appended (visited doc))%list)).
  { intros s1.
    assert (Hid : Config.mk (Config.browser_default s1) (Config.rules s1 ++ []) = s1)
      by (rewrite app_nil_r; destruct s1; reflexivity).
    assert (Hcaught : forall v e, percent_s v = Raise e -> e = TypeError).
    { intros v e. destruct v; try discriminate.
      destruct items as [|item [|item' items]]; cbn; congruence. }
    unfold try_except, bind, lift, ret, visited, getitem.
    destruct doc; cbn; rewrite ?Hid; try reflexivity.
    destruct (dict_lookup "rules" items) as [rules_data|]; cbn; rewrite ?Hid; [|reflexivity].
    destruct (percent_s rules_data) as [[]|e] eqn:Hlog; cbn [res_bind].
    - destruct (py_iter rules_data) as [entries|e] eqn:Hit.
      + rewrite rules_loop_spec. destruct (forallb is_mapping entries); reflexivity.
      + destruct rules_data; cbn in Hit; try discriminate;
          injection Hit as <-; cbn; rewrite Hid; reflexivity.
    - rewrite (Hcaught _ _ Hlog). cbn. rewrite Hid. reflexivity. }
  unfold bind at 1.
  assert (Hbasic :
            try_except
              (basic <- lift (getitem doc "basic") ;;
               v <- lift (getitem basic "browser_id") ;;
               modify (fun self => Config.mk v (Config.rules self)))
              [KeyError; TypeError] (ret tt) s
            = (Ret tt, Config.mk (default (Config.browser_default s) (basic_browser_id doc))
                         (Config.rules s))).
  { unfold try_except, bind, lift, ret, modify, basic_browser_id, getitem.
    assert (Hid : Config.mk (Config.browser_default s) (Config.rules s) = s)
      by (destruct s; reflexivity).
    destruct doc; cbn; rewrite ?Hid; try reflexivity.
    destruct (dict_lookup "basic" items) as [basic|]; cbn; rewrite ?Hid; [|reflexivity].
    destruct basic; cbn; rewrite ?Hid; try reflexivity.
    destruct (dict_lookup "browser_id" items0); cbn; rewrite ?Hid; reflexivity. }
  rewrite Hbasic, Hrules. reflexivity.
Qed.

(** [load_from_file], spelled out. *)
Lemma load_from_file_spec (fname : string) (s : Config.t) :
  load_from_file fname s =
    match yaml_load fname with
    | Ret doc =>
        match percent_s doc with
        | Ret _ =>
            (Ret tt,
             Config.mk (default (Config.browser_default s) (basic_browser_id doc))
                       (Config.rules s ++ appended (visited doc))%list)
        | Raise e => (Raise e, s)
        end
    | Raise e =>
        if one_of [IOError; YAMLError] e then (Ret tt, s) else (Raise e, s)
    end.
Proof.
  unfold load_from_file. unfold bind at 1. unfold try_except at 1. unfold lift at 1.
  destruct (yaml_load fname) as [doc|e].
  - unfold bind at 1. unfold lift at 1.
    destruct (percent_s doc) as [[]|e]; [apply fit_data_spec | reflexivity].
  - destruct (one_of [IOError; YAMLError] e); [|reflexivity].
    unfold ret at 1. unfold bind at 1. unfold lift at 1. cbn [percent_s].
    rewrite fit_data_spec. cbn.
    rewrite app_nil_r. destruct s; reflexivity.
Qed.

Lemma Config_init_spec (s : Config.t) :
  Config_init s =
    match find_cfg_file with
    | Some fn =>
        match yaml_load fn with
        | Ret doc =>
            match percent_s doc with
            | Ret _ =>
                (Ret tt,
                 Config.mk (default (PyStr BROWSER_DEFAULT) (basic_browser_id doc))
                           (appended (visited doc)))
            | Raise e => (Raise e, Config.mk (PyStr BROWSER_DEFAULT) [])
            end
        | Raise e =>
            (if one_of [IOError; YAMLError] e then Ret tt else Raise e,
             Config.mk (PyStr BROWSER_DEFAULT) [])
        end
    | None => (Ret tt, Config.mk (PyStr BROWSER_DEFAULT) [])
    end.
Proof.
  unfold Config_init. unfold bind at 1. unfold modify at 1.
  destruct find_cfg_file as [fn|]; [|reflexivity].
  rewrite load_from_file_spec.
  destruct (yaml_load fn) as [doc|e].
  - destruct (percent_s doc); reflexivity.
  - destruct (one_of [IOError; YAMLError] e); reflexivity.
Qed.

(** The loader returns whenever reading the file gives a value that is
    not a tuple, or fails with one of the two exceptions the script
    expects from it. *)
Lemma Config_init_returns (s : Config.t) :
  (forall fn e, yaml_load fn = Raise e -> one_of [IOError; YAMLError] e = true) ->
  (forall fn doc, yaml_load fn = Ret doc -> percent_s doc = Ret tt) ->
  fst (Config_init s) = Ret tt.
Proof.
  intros Hio Hlog. rewrite Config_init_spec.
  destruct find_cfg_file as [fn|]; [|reflexivity].
  destruct (yaml_load fn) as [doc|e] eqn:Hy.
  - rewrite (Hlog fn doc Hy). reflexivity.
  - cbn [fst]. rewrite (Hio fn e Hy). reflexivity.
Qed.
End LoadFromFile.

(** ** The claims about the loader *)

Section PickedFacts.

Lemma picked_lookup (items : list (pyval * pyval)) (ks : list string) :
  forall (r0 : rule) (k : string),
    picked items ks r0 !! k =
      if bool_decide (k ∈ ks)
      then match dict_lookup k items with
           | Some v => Some v
           | None => r0 !! k
           end
      else r0 !! k.
Proof.
  induction ks as [|k0 ks IH]; intros r0 k; [reflexivity|].
  unfold picked in *. cbn [foldl]. rewrite IH.
  destruct (decide (k = k0)) as [->|Hne].
  - rewrite (bool_decide_eq_true_2 (k0 ∈ k0 :: ks)) by constructor.
    destruct (dict_lookup k0 items) as [v|] eqn:Hk.
    + rewrite lookup_insert_eq. destruct (bool_decide (k0 ∈ ks)); reflexivity.
    + destruct (bool_decide (k0 ∈ ks)); reflexivity.
  - assert (Hin : bool_decide (k ∈ k0 :: ks) = bool_decide (k ∈ ks)).
    { apply bool_decide_ext. rewrite elem_of_cons.
      split; [intros [Heq|Hin]; [contradiction | exact Hin] | intros Hin; right; exact Hin]. }
    rewrite Hin.
    destruct (dict_lookup k0 items) as [v0|]; [|reflexivity].
    rewrite lookup_insert_ne by congruence. reflexivity.
Qed.

(** The dict is appended exactly when the entry has one of the keys. *)
Lemma picked_size (items : list (pyval * pyval)) :
  (0 <? size (picked items keys ∅))%nat = has_rule_key (PyDict items).
Proof.
  unfold has_rule_key, keys, picked. cbn [existsb entry_lookup foldl].
  destruct (dict_lookup "browser_id" items), (dict_lookup "url_pattern" items),
    (dict_lookup "url_replace" items); cbn [orb];
    try (apply Nat.ltb_lt;
         match goal with
         | |- (0 < size (<[?k := ?v]> ?m))%nat =>
             pose proof (proj2 (map_size_non_empty_iff (<[k := v]> m))
                           (insert_non_empty m k v)); lia
         end).
  reflexivity.
Qed.

(** Without an entry that is not a mapping, the appended rules are
    the entries that have one of the keys, in the order of the
    document. *)
Lemma appended_mappings (entries : list pyval) :
  forallb is_mapping entries = true ->
  Forall2 (fun entry (r : rule) =>
             forall k, r !! k = if bool_decide (k ∈ keys) then entry_lookup entry k else None)
          (List.filter has_rule_key entries) (appended entries).
Proof.
  induction entries as [|e entries IH]; intros Hall; [constructor|].
  cbn [forallb] in Hall. apply andb_prop in Hall as [He Hall].
  destruct e; try discriminate. cbn [appended List.filter].
  rewrite picked_size.
  destruct (has_rule_key (PyDict items)); cbn [app]; [|auto].
  constructor; [|auto].
  intros k. rewrite picked_lookup, lookup_empty. cbn [entry_lookup].
  destruct (bool_decide (k ∈ keys)); [|reflexivity].
  destruct (dict_lookup k items); reflexivity.
Qed.
End PickedFacts.

(** C6, as the code has it. The loaded default is the value found under
    [basic.browser_id] whenever the document is a mapping whose [basic]
    is a mapping with that key, whatever the type of the value; in
    every other case (no file, a file that cannot be read or parsed, no
    such key) it is the built-in constant. *)
Theorem default_browser_loaded `{Host} (s : Config.t) :
  Config.browser_default (snd (Config_init s)) =
    match find_cfg_file with
    | Some fn =>
        match yaml_load fn with
        | Ret doc => default (PyStr BROWSER_DEFAULT) (basic_browser_id doc)
        | Raise _ => PyStr BROWSER_DEFAULT
        end
    | None => PyStr BROWSER_DEFAULT
    end.
Proof.
  rewrite Config_init_spec.
  destruct find_cfg_file as [fn|]; [|reflexivity].
  destruct (yaml_load fn) as [doc|e]; [|reflexivity].
  destruct doc; try reflexivity.
  destruct items as [|item [|item' items]]; reflexivity.
Qed.

(** C6 fails on the code: a [basic.browser_id] that is a number is
    loaded as the default, not replaced by the built-in constant. *)
Lemma non_string_default_is_loaded :
  Config.browser_default (snd (@Config_init (host_with (Ret numeric_default_doc)) fresh))
    = PyInt 42
  /\ is_basestring (PyInt 42) = false
  /\ PyInt 42 <> PyStr BROWSER_DEFAULT.
Proof. split; [vm_compute; reflexivity|]. split; [reflexivity | discriminate]. Qed.

(** C7, as the code has it. For a [rules] sequence of mappings, the
    loaded rules are, in the order of the document, the entries that
    have at least one of the keys [browser_id], [url_pattern] and
    [url_replace]; each rule holds exactly those of the three keys that
    its entry has, with the entry's value of whatever type; an entry
    with none of the three keys adds no rule. *)
Theorem rules_keep_present_fields `{Host} (fname : string) (top : list (pyval * pyval))
    (entries : list pyval) (s : Config.t) :
  yaml_load fname = Ret (PyDict top) ->
  dict_lookup "rules" top = Some (PyList entries) ->
  forallb is_mapping entries = true ->
  exists loaded : list rule,
    Config.rules (snd (load_from_file fname s)) = (Config.rules s ++ loaded)%list
    /\ Forall2 (fun entry (r : rule) =>
                  forall k, r !! k = if bool_decide (k ∈ keys) then entry_lookup entry k else None)
               (List.filter has_rule_key entries) loaded.
Proof.
  intros Hdoc Hrules Hall. exists (appended entries).
  rewrite load_from_file_spec, Hdoc. cbn [snd Config.rules visited].
  rewrite Hrules. cbn [py_iter]. split; [reflexivity|].
  apply appended_mappings, Hall.
Qed.

Lemma rules_keep_present_fields_witness :
  @yaml_load (host_with (Ret (doc_of_rules [chrome_entry; comment_entry; numeric_entry])))
     "/Users/me/.brosel"
    = Ret (PyDict [(PyStr "rules", PyList [chrome_entry; comment_entry; numeric_entry])])
  /\ dict_lookup "rules" [(PyStr "rules", PyList [chrome_entry; comment_entry; numeric_entry])]
       = Some (PyList [chrome_entry; comment_entry; numeric_entry])
  /\ forallb is_mapping [chrome_entry; comment_entry; numeric_entry] = true
  /\ List.filter has_rule_key [chrome_entry; comment_entry; numeric_entry]
       = [chrome_entry; numeric_entry]
  /\ exists loaded : list rule,
       Config.rules
         (snd (@load_from_file
                 (host_with (Ret (doc_of_rules [chrome_entry; comment_entry; numeric_entry])))
                 "/Users/me/.brosel" fresh))
         = (Config.rules fresh ++ loaded)%list
       /\ Forall2 (fun entry (r : rule) =>
                     forall k, r !! k = if bool_decide (k ∈ keys)
                                        then entry_lookup entry k else None)
                  (List.filter has_rule_key [chrome_entry; comment_entry; numeric_entry])
                  loaded.
Proof.
  split; [reflexivity|].
  split; [reflexivity|].
  split; [reflexivity|].
  split; [reflexivity|].
  apply (@rules_keep_present_fields
           (host_with (Ret (doc_of_rules [chrome_entry; comment_entry; numeric_entry])))
           "/Users/me/.brosel"
           [(PyStr "rules", PyList [chrome_entry; comment_entry; numeric_entry])]
           [chrome_entry; comment_entry; numeric_entry] fresh);
    reflexivity.
Defined.

(** C7 fails on the code: a [browser_id] that is a number is kept in
    the loaded rule. *)
Lemma non_string_field_is_kept :
  Config.rules (snd (@Config_init (host_with (Ret (doc_of_rules [numeric_entry]))) fresh))
    = [ {[ "url_pattern" := PyStr "example"; "browser_id" := PyInt 42 ]} ]
  /\ ({[ "url_pattern" := PyStr "example"; "browser_id" := PyInt 42 ]} : rule) !! "browser_id"
       = Some (PyInt 42)
  /\ is_basestring (PyInt 42) = false.
Proof. split; [vm_compute; reflexivity|]. split; [vm_compute; reflexivity | reflexivity]. Qed.

(** C5, where the code departs from it. An entry of [rules] that is not
    a mapping ends the loading of rules: the well-formed entry after it
    is not loaded, while the same entry in front of it is.  The loader
    itself returns, and the default browser is loaded all the same. *)
Theorem non_mapping_entry_ends_rule_loading :
  @Config_init (host_with (Ret (PyDict [(PyStr "basic", PyDict [(PyStr "browser_id", PyStr "firefox")]);
                                        (PyStr "rules", PyList [PyStr "oops"; chrome_entry])])))
     fresh
    = (Ret tt, Config.mk (PyStr "firefox") [])
  /\ @Config_init (host_with (Ret (doc_of_rules [chrome_entry; PyStr "oops"]))) fresh
    = (Ret tt, Config.mk (PyStr BROWSER_DEFAULT)
                 [ {[ "url_pattern" := PyStr "example"; "browser_id" := PyStr "chrome" ]} ])
  /\ @Config_init (host_with (Ret (doc_of_rules [chrome_entry]))) fresh
    = (Ret tt, Config.mk (PyStr BROWSER_DEFAULT)
                 [ {[ "url_pattern" := PyStr "example"; "browser_id" := PyStr "chrome" ]} ]).
Proof. repeat split; vm_compute; reflexivity. Qed.

(** ** Further properties of the loader *)

Section LoaderMore.
Context `{Host}.

(** [find_cfg_file] answers with the first candidate that exists: the
    candidates in front of it do not exist; and with nothing exactly
    when no candidate exists. *)
Theorem find_cfg_file_first_existing :
  match find_cfg_file with
  | Some fn =>
      exists before after,
        cfg_files_list = (before ++ fn :: after)%list
        /\ forallb (fun path => negb (osp_exists path)) before = true
        /\ osp_exists fn = true
  | None => forallb (fun path => negb (osp_exists path)) cfg_files_list = true
  end.
Proof.
  unfold find_cfg_file.
  induction cfg_files_list as [|path paths IH]; [reflexivity|].
  cbn [List.find forallb]. destruct (osp_exists path) eqn:Hp.
  - exists [], paths. auto.
  - destruct (List.find osp_exists paths) as [fn|].
    + destruct IH as (before & after & -> & Hbefore & Hfn).
      exists (path :: before), after. cbn [app forallb]. rewrite Hp, Hbefore. auto.
    + rewrite IH. reflexivity.
Qed.

(** What leaves [Config.__init__]: nothing for a file that cannot be
    opened or parsed, and nothing for what the file holds unless that is
    a tuple not of one item, on which the log line of the document
    raises [TypeError] outside every handler; an exception of another
    class than the two expected, raised while reading, is not caught. *)
Theorem Config_init_outcome (s : Config.t) :
  fst (Config_init s) =
    match find_cfg_file with
    | Some fn =>
        match yaml_load fn with
        | Ret (PyTuple [_]) => Ret tt
        | Ret (PyTuple _) => Raise TypeError
        | Ret _ => Ret tt
        | Raise e => if one_of [IOError; YAMLError] e then Ret tt else Raise e
        end
    | None => Ret tt
    end.
Proof.
  rewrite Config_init_spec.
  destruct find_cfg_file as [fn|]; [|reflexivity].
  destruct (yaml_load fn) as [doc|e]; [|reflexivity].
  destruct doc; try reflexivity.
  destruct items as [|item [|item' items]]; reflexivity.
Qed.

Lemma appended_well_formed (entries : list pyval) :
  Forall well_formed_rule (appended entries).
Proof.
  induction entries as [|e entries IH]; [constructor|].
  destruct e; try constructor. cbn [appended].
  apply Forall_app. split; [|exact IH].
  destruct (0 <? size (picked items keys ∅))%nat eqn:Hsize; [|constructor].
  constructor; [|constructor]. split.
  - intros Hempty. rewrite Hempty, map_size_empty in Hsize. discriminate.
  - intros k [v Hk]. rewrite picked_lookup, lookup_empty in Hk.
    destruct (bool_decide (k ∈ keys)) eqn:Hin; [|discriminate].
    apply bool_decide_eq_true_1 in Hin. exact Hin.
Qed.

(** Loading only appends: the rules the object held stay in front, in
    their order, and every rule added is well formed, whatever the file
    holds and whether or not it can be read. *)
Theorem load_from_file_appends_well_formed_rules (fname : string) (s : Config.t) :
  exists loaded : list rule,
    Config.rules (snd (load_from_file fname s)) = (Config.rules s ++ loaded)%list
    /\ Forall well_formed_rule loaded.
Proof.
  rewrite load_from_file_spec. destruct (yaml_load fname) as [doc|e].
  - destruct (percent_s doc).
    + exists (appended (visited doc)). split; [reflexivity | apply appended_well_formed].
    + exists []. rewrite app_nil_r. split; [reflexivity | constructor].
  - exists []. rewrite app_nil_r.
    split; [destruct (one_of _ e); reflexivity | constructor].
Qed.

(** Without a document that is a mapping (no file, a file that cannot
    be read, an empty file, a file that holds a list, a scalar or a
    tuple) the configuration is the built-in one: the Safari command
    and no rule; and [Config.__init__] returns, unless the document is a
    tuple not of one item or reading raised an exception of another
    class than the two expected. *)
Theorem config_defaults_without_mapping (s : Config.t) :
  (forall fn top, find_cfg_file = Some fn -> yaml_load fn <> Ret (PyDict top)) ->
  Config_init s =
    (match find_cfg_file with
     | Some fn =>
         match yaml_load fn with
         | Ret (PyTuple [_]) => Ret tt
         | Ret (PyTuple _) => Raise TypeError
         | Ret _ => Ret tt
         | Raise e => if one_of [IOError; YAMLError] e then Ret tt else Raise e
         end
     | None => Ret tt
     end,
     Config.mk (PyStr BROWSER_DEFAULT) []).
Proof.
  intros Hno. rewrite Config_init_spec.
  destruct find_cfg_file as [fn|]; [|reflexivity].
  specialize (Hno fn). destruct (yaml_load fn) as [doc|e]; [|reflexivity].
  destruct doc; try reflexivity.
  - exfalso. exact (Hno items eq_refl eq_refl).
  - destruct items as [|item [|item' items]]; reflexivity.
Qed.

Lemma appended_prefix (pre post : list pyval) (bad : pyval) :
  forallb is_mapping pre = true ->
  is_mapping bad = false ->
  appended (pre ++ bad :: post) = appended pre.
Proof.
  intros Hpre Hbad. induction pre as [|e pre IH].
  - destruct bad; try discriminate; reflexivity.
  - cbn [forallb] in Hpre. apply andb_prop in Hpre as [He Hpre].
    destruct e; try discriminate. cbn [app appended]. rewrite (IH Hpre). reflexivity.
Qed.

(** The loop over the rule entries ends at the first entry that is not
    a mapping: the loader returns, the entries in front of it are
    loaded as usual, and nothing after it is looked at. *)
Theorem rule_loading_ends_at_first_non_mapping (fname : string)
    (top : list (pyval * pyval)) (pre post : list pyval) (bad : pyval) (s : Config.t) :
  yaml_load fname = Ret (PyDict top) ->
  dict_lookup "rules" top = Some (PyList (pre ++ bad :: post)) ->
  forallb is_mapping pre = true ->
  is_mapping bad = false ->
  fst (load_from_file fname s) = Ret tt
  /\ exists loaded : list rule,
       Config.rules (snd (load_from_file fname s)) = (Config.rules s ++ loaded)%list
       /\ Forall2 (fun entry (r : rule) =>
                     forall k, r !! k = if bool_decide (k ∈ keys)
                                        then entry_lookup entry k else None)
                  (List.filter has_rule_key pre) loaded.
Proof.
  intros Hdoc Hrules Hpre Hbad.
  rewrite load_from_file_spec, Hdoc. cbn [percent_s]. split; [reflexivity|].
  exists (appended pre). cbn [snd Config.rules visited].
  rewrite Hrules. cbn [py_iter percent_s res_bind].
  rewrite (appended_prefix pre post bad Hpre Hbad).
  split; [reflexivity | apply appended_mappings, Hpre].
Qed.

(** A [rules] value that is a string or a scalar (not a sequence and
    not a mapping) adds no rule, and the loader returns. *)
Theorem rules_not_a_sequence_loads_nothing (fname : string)
    (top : list (pyval * pyval)) (rules_data : pyval) (s : Config.t) :
  yaml_load fname = Ret (PyDict top) ->
  dict_lookup "rules" top = Some rules_data ->
  match rules_data with PyList _ | PyDict _ | PyTuple _ => false | _ => true end = true ->
  fst (load_from_file fname s) = Ret tt
  /\ Config.rules (snd (load_from_file fname s)) = Config.rules s.
Proof.
  intros Hdoc Hrules Hshape.
  rewrite load_from_file_spec, Hdoc. cbn [percent_s]. split; [reflexivity|].
  cbn [snd Config.rules visited]. rewrite Hrules.
  destruct rules_data; try discriminate; cbn [py_iter percent_s res_bind appended];
    try (apply app_nil_r).
  destruct (list_ascii_of_string s0); cbn [map appended]; apply app_nil_r.
Qed.
End LoaderMore.

Lemma config_defaults_without_mapping_witness :
  (forall fn top,
      @find_cfg_file (host_with (Ret (PyList [chrome_entry]))) = Some fn ->
      @yaml_load (host_with (Ret (PyList [chrome_entry]))) fn <> Ret (PyDict top))
  /\ @Config_init (host_with (Ret (PyList [chrome_entry]))) fresh
       = (Ret tt, Config.mk (PyStr BROWSER_DEFAULT) []).
Proof.
  assert (Hno : forall fn top,
             @find_cfg_file (host_with (Ret (PyList [chrome_entry]))) = Some fn ->
             @yaml_load (host_with (Ret (PyList [chrome_entry]))) fn <> Ret (PyDict top))
    by (intros fn top _; discriminate).
  split; [exact Hno|].
  exact (@config_defaults_without_mapping (host_with (Ret (PyList [chrome_entry]))) fresh Hno).
Defined.

Lemma rule_loading_ends_at_first_non_mapping_witness :
  fst (@load_from_file
         (host_with (Ret (doc_of_rules ([chrome_entry; comment_entry] ++ PyInt 7 :: [numeric_entry]))))
         "/Users/me/.brosel" fresh) = Ret tt
  /\ exists loaded : list rule,
       Config.rules
         (snd (@load_from_file
                 (host_with (Ret (doc_of_rules
                                    ([chrome_entry; comment_entry] ++ PyInt 7 :: [numeric_entry]))))
                 "/Users/me/.brosel" fresh))
         = (Config.rules fresh ++ loaded)%list
       /\ Forall2 (fun entry (r : rule) =>
                     forall k, r !! k = if bool_decide (k ∈ keys)
                                        then entry_lookup entry k else None)
                  (List.filter has_rule_key [chrome_entry; comment_entry]) loaded.
Proof.
  apply (@rule_loading_ends_at_first_non_mapping
           (host_with (Ret (doc_of_rules
                              ([chrome_entry; comment_entry] ++ PyInt 7 :: [numeric_entry]))))
           "/Users/me/.brosel"
           [(PyStr "rules", PyList ([chrome_entry; comment_entry] ++ PyInt 7 :: [numeric_entry]))]
           [chrome_entry; comment_entry] [numeric_entry] (PyInt 7) fresh);
    reflexivity.
Defined.

Lemma rules_not_a_sequence_loads_nothing_witness :
  fst (@load_from_file
         (host_with (Ret (PyDict [(PyStr "rules", PyStr "github")])))
         "/Users/me/.brosel" (safari [github_rule])) = Ret tt
  /\ Config.rules
       (snd (@load_from_file
               (host_with (Ret (PyDict [(PyStr "rules", PyStr "github")])))
               "/Users/me/.brosel" (safari [github_rule])))
     = Config.rules (safari [github_rule]).
Proof.
  apply (@rules_not_a_sequence_loads_nothing
           (host_with (Ret (PyDict [(PyStr "rules", PyStr "github")])))
           "/Users/me/.brosel" [(PyStr "rules", PyStr "github")] (PyStr "github")
           (safari [github_rule]));
    reflexivity.
Defined.

(** ** Further properties of the rule engine *)

Section EngineMore.
Context `{Libs}.

Lemma apply_rule_run (r : rule) (locals : string * browser) (s s' : Config.t) :
  run (apply_rule r locals) s = run (apply_rule r locals) s'.
Proof. unfold run at 1. rewrite (apply_rule_pure r locals s s'). reflexivity. Qed.

Lemma rules_loop_without_pattern (rs : list rule) :
  forall (locals : string * browser) (s s' : Config.t),
    run (for_in rs apply_rule locals) s =
    run (for_in (List.filter (has_string "url_pattern") rs) apply_rule locals) s'.
Proof.
  induction rs as [|r rs IH]; intros locals s s'.
  - apply rules_loop_run.
  - cbn [List.filter]. destruct (has_string "url_pattern" r) eqn:Hp.
    + rewrite !rules_loop_cons.
      rewrite (apply_rule_run r locals s s').
      destruct (run (apply_rule r locals) s') as [locals'|e]; cbn [res_bind]; [apply IH | reflexivity].
    + rewrite rules_loop_cons, apply_rule_skip by exact Hp. cbn [res_bind]. apply IH.
Qed.

(** A rule without a string [url_pattern] takes no part in the
    resolution, whatever else it holds: a rule list resolves every URL
    as the list without such rules does. *)
Theorem rules_without_pattern_are_inert (url : string) (d : pyval) (rules : list rule) :
  run (select_and_open url) (Config.mk d rules) =
  run (select_and_open url) (Config.mk d (List.filter (has_string "url_pattern") rules)).
Proof.
  unfold run. rewrite !select_and_open_unfold.
  cbn [fst Config.browser_default Config.rules].
  destruct (webbrowser_get d) as [b0|e]; cbn [res_bind]; [|reflexivity].
  rewrite (rules_loop_without_pattern rules (url, b0) _
             (Config.mk d (List.filter (has_string "url_pattern") rules))).
  reflexivity.
Qed.

(** What the rules in front leave for the rule after them. *)
Lemma select_prefix_ret (url : string) (d : pyval) (pre : list rule)
    (b : browser) (u : string) (s : Config.t) :
  run (select_and_open url) (Config.mk d pre) = Ret (b, u) ->
  exists b0, webbrowser_get d = Ret b0
             /\ run (for_in pre apply_rule (url, b0)) s = Ret (u, b).
Proof.
  unfold run at 1. rewrite select_and_open_unfold.
  cbn [fst Config.browser_default Config.rules].
  destruct (webbrowser_get d) as [b0|e]; cbn [res_bind]; [|discriminate].
  rewrite (rules_loop_run pre _ _ s).
  destruct (run (for_in pre apply_rule (url, b0)) s) as [[u' b']|e] eqn:Hloop;
    cbn [res_bind fst snd]; [|discriminate].
  intros Hopen. apply log_and_open_ret in Hopen as [-> ->].
  exists b0. split; [reflexivity | exact Hloop].
Qed.



(** Once the lookup of the default browser or the evaluation of a rule
    has raised, rules appended to the list do not change that: with the
    longer list [select_and_open] raises the same exception.  (A run
    that raises only in the lines after the loop is another matter: a
    later rule may select another browser.) *)
Theorem failure_is_final (url : string) (d : pyval) (pre post : list rule) (e : exn) :
  evaluate url (Config.mk d pre) = Raise e ->
  evaluate url (Config.mk d (pre ++ post)) = Raise e
  /\ run (select_and_open url) (Config.mk d (pre ++ post)) = Raise e.
Proof.
  intros Hpre.
  assert (Heval : evaluate url (Config.mk d (pre ++ post)) = Raise e)
    by (rewrite evaluate_app, Hpre; reflexivity).
  split; [exact Heval|].
  rewrite select_and_open_evaluate, Heval. reflexivity.
Qed.

(** The browser of a matching rule is looked up when the rule is
    evaluated, after its substitution if it has one: if the lookup
    raises, the resolution raises, although a later rule might have
    named another browser. *)
Theorem browser_lookup_is_eager (url : string) (d : pyval) (pre post : list rule) (r : rule)
    (current pat id : string) (selected : browser) (p : pattern) (e : exn) :
  evaluate url (Config.mk d pre) = Ret (current, selected) ->
  dict_get r "url_pattern" = PyStr pat ->
  re_compile pat = Ret p ->
  re_search p current = true ->
  dict_get r "browser_id" = PyStr id ->
  webbrowser_get (PyStr id) = Raise e ->
  run (select_and_open url) (Config.mk d (pre ++ r :: post)) =
    match dict_get r "url_replace" with
    | PyStr repl => res_bind (re_sub p repl current) (fun _ => Raise e)
    | _ => Raise e
    end.
Proof.
  intros Hpre Hpat Hc Hs Hid Hget.
  rewrite select_and_open_evaluate, evaluate_app, Hpre. cbn [res_bind].
  rewrite rules_loop_cons, (apply_rule_hit r pat p) by assumption.
  unfold choose_browser. rewrite Hid, Hget.
  destruct (dict_get r "url_replace") as [| | | |repl| | |]; cbn [res_bind]; try reflexivity.
  destruct (re_sub p repl current); reflexivity.
Qed.
End EngineMore.

Section EngineEffects.
Context `{Libs}.

Lemma rewritten_without_replace (r : rule) (url : string) :
  has_string "url_replace" r = false -> rewritten r url = url.
Proof.
  unfold has_string, rewritten. intros Hr.
  destruct (compiled r); [|reflexivity].
  destruct (dict_get r "url_replace"); try discriminate; reflexivity.
Qed.

(** Only a string [url_replace] can change the URL: with rules that
    have none, whatever is opened is the URL that came in. *)
Theorem url_changes_only_by_url_replace (url : string) (cfg : Config.t)
    (b : browser) (url' : string) :
  forallb (fun r => negb (has_string "url_replace" r)) (Config.rules cfg) = true ->
  run (select_and_open url) cfg = Ret (b, url') ->
  url' = url.
Proof.
  intros Hnone Hrun. destruct cfg as [d rules]. cbn [Config.rules] in Hnone.
  destruct (select_prefix_ret _ _ _ _ _ (Config.mk d rules) Hrun) as (b0 & _ & Hloop).
  apply rules_loop_url in Hloop. subst url'. clear Hrun.
  induction rules as [|r rules IH]; [reflexivity|].
  cbn [forallb] in Hnone. apply andb_prop in Hnone as [Hr Hnone].
  cbn [foldl]. rewrite rewritten_without_replace by (destruct (has_string _ r); auto; discriminate).
  exact (IH Hnone).
Qed.

(** Only a string [browser_id] can change the browser: with rules that
    have none, whatever is opened is opened with the browser of the
    configured default. *)
Theorem browser_changes_only_by_browser_id (url : string) (cfg : Config.t)
    (b : browser) (url' : string) :
  forallb (fun r => negb (has_string "browser_id" r)) (Config.rules cfg) = true ->
  run (select_and_open url) cfg = Ret (b, url') ->
  webbrowser_get (Config.browser_default cfg) = Ret b.
Proof.
  intros Hnone Hrun. destruct cfg as [d rules]. cbn [Config.rules Config.browser_default] in *.
  destruct (select_prefix_ret _ _ _ _ _ (Config.mk d rules) Hrun) as (b0 & Hd & Hloop).
  apply rules_loop_browser in Hloop.
  assert (Hids : forall current, chosen_ids rules current = []).
  { clear Hloop Hrun. induction rules as [|r rules IH]; intros current; [reflexivity|].
    cbn [forallb] in Hnone. apply andb_prop in Hnone as [Hr Hnone].
    cbn [chosen_ids]. rewrite (IH Hnone). unfold has_string in Hr.
    destruct (matches r current); [|reflexivity].
    destruct (dict_get r "browser_id"); try discriminate; reflexivity. }
  rewrite Hids in Hloop. cbn [last] in Hloop. subst b. exact Hd.
Qed.

Lemma apply_rule_raise (r : rule) (url : string) (b : browser) (s : Config.t) (e : exn) :
  run (apply_rule r (url, b)) s = Raise e -> library_raises r e.
Proof.
  unfold library_raises.
  destruct (dict_get r "url_pattern") as [| | | |pat| | |] eqn:Hp;
    try (rewrite apply_rule_skip by (rewrite Hp; reflexivity); discriminate).
  destruct (re_compile pat) as [p|e0] eqn:Hc.
  - destruct (re_search p url) eqn:Hs.
    + rewrite (apply_rule_hit r pat p) by assumption. unfold choose_browser.
      destruct (dict_get r "url_replace") as [| | | |repl| | |] eqn:Hr; cbn [res_bind];
        try (destruct (dict_get r "browser_id") as [| | | |id| | |]; cbn [res_bind];
             try discriminate;
             destruct (webbrowser_get (PyStr id)) eqn:Hg; cbn [res_bind];
             [discriminate | intros [= ->]; right; right; exists id; auto]).
      destruct (re_sub p repl url) eqn:Hsub; cbn [res_bind].
      * destruct (dict_get r "browser_id") as [| | | |id| | |]; cbn [res_bind];
          try discriminate.
        destruct (webbrowser_get (PyStr id)) eqn:Hg; cbn [res_bind];
          [discriminate | intros [= ->]; right; right; exists id; auto].
      * intros [= ->]. right; left. exists pat, p, repl, url. auto.
    + rewrite (apply_rule_miss r pat p) by assumption. discriminate.
  - rewrite (apply_rule_bad_pattern r pat e0) by assumption.
    intros [= ->]. left. exists pat. auto.
Qed.

Lemma log_and_open_raise (b : browser) (url : string) (e : exn) :
  log_and_open b url = Raise e ->
  browser_name b = Raise e \/ browser_args b = Raise e \/ open_new_tab b url = Raise e.
Proof.
  unfold log_and_open.
  destruct (browser_name b); cbn [res_bind]; [|intros [= ->]; auto].
  destruct (browser_args b); cbn [res_bind]; [|intros [= ->]; auto].
  destruct (open_new_tab b url); cbn [res_bind]; [discriminate | intros [= ->]; auto].
Qed.

(** Where an exception that leaves [select_and_open] comes from: the
    lookup of the default browser, a library call made for one of the
    rules, or, once the rules are evaluated, the read of the selected
    controller's [name] or [args] for the log line or its
    [open_new_tab]. *)
Theorem select_and_open_exception_origin (url : string) (cfg : Config.t) (e : exn) :
  run (select_and_open url) cfg = Raise e ->
  webbrowser_get (Config.browser_default cfg) = Raise e
  \/ (exists r, r ∈ Config.rules cfg /\ library_raises r e)
  \/ (exists current selected,
        evaluate url cfg = Ret (current, selected)
        /\ (browser_name selected = Raise e
            \/ browser_args selected = Raise e
            \/ open_new_tab selected current = Raise e)).
Proof.
  rewrite select_and_open_evaluate.
  destruct (evaluate url cfg) as [[current selected]|e0] eqn:Heval; cbn [res_bind fst snd].
  - intros Hopen. right; right. exists current, selected.
    split; [reflexivity | exact (log_and_open_raise _ _ _ Hopen)].
  - intros [= ->]. unfold evaluate in Heval.
    destruct (webbrowser_get (Config.browser_default cfg)) as [b0|e0]; cbn [res_bind] in Heval;
      [|left; injection Heval as ->; reflexivity].
    right; left. revert Heval. generalize (url, b0). generalize (Config.rules cfg) as rules.
    induction rules as [|r rules IH]; intros locals.
    + unfold run; cbn. discriminate.
    + rewrite rules_loop_cons.
      destruct (run (apply_rule r locals) cfg) as [locals'|e0] eqn:Hr; cbn [res_bind].
      * intros Hrest. destruct (IH _ Hrest) as (r' & Hin & Hraise).
        exists r'. split; [right; exact Hin | exact Hraise].
      * intros [= ->]. exists r. split; [left|].
        destruct locals as [current b]. exact (apply_rule_raise _ _ _ _ _ Hr).
Qed.

Lemma open_all_loop (args : list string) (cfg : Config.t) :
  forall done : list (browser * string),
    run (for_in args (fun arg opened => o <- select_and_open arg ;; ret (opened ++ [o])%list)
           done) cfg
    = res_bind (resolve_each args cfg) (fun os => Ret (done ++ os)%list).
Proof.
  induction args as [|arg args IH]; intros done.
  - unfold run; cbn. rewrite app_nil_r. reflexivity.
  - unfold run. cbn [for_in resolve_each]. unfold bind at 1 2.
    rewrite select_and_open_unfold. fold (run (select_and_open arg) cfg).
    unfold run at 2. rewrite select_and_open_unfold. cbn [fst].
    destruct (res_bind (webbrowser_get _) _) as [o|e]; cbn [res_bind]; [|reflexivity].
    unfold ret at 1. fold (run (for_in args
      (fun arg opened => o <- select_and_open arg ;; ret (opened ++ [o])%list)
      (done ++ [o])%list) cfg).
    rewrite IH. destruct (resolve_each args cfg); cbn [res_bind]; [|reflexivity].
    rewrite <- app_assoc. reflexivity.
Qed.

(** The URLs of the command line are resolved in the order given, each
    as it is resolved alone against the configuration; the list of
    what was opened is returned exactly when every URL resolves, and
    the first URL that raises ends the run with its exception. *)
Theorem open_all_resolves_in_order (args : list string) (cfg : Config.t) :
  (forall opened,
      run (open_all args) cfg = Ret opened <->
      Forall2 (fun arg o => run (select_and_open arg) cfg = Ret o) args opened)
  /\ (forall before arg after opened e,
        args = (before ++ arg :: after)%list ->
        run (open_all before) cfg = Ret opened ->
        run (select_and_open arg) cfg = Raise e ->
        run (open_all args) cfg = Raise e).
Proof.
  assert (Hspec : forall l, run (open_all l) cfg = resolve_each l cfg).
  { intros l. unfold open_all. rewrite open_all_loop.
    destruct (resolve_each l cfg); reflexivity. }
  split.
  - intros opened. rewrite Hspec. revert opened.
    induction args as [|arg args IH]; intros opened; cbn [resolve_each].
    + split; [intros [= <-]; constructor | intros HF; inversion HF; reflexivity].
    + split.
      * destruct (run (select_and_open arg) cfg) as [o|e] eqn:Ho; cbn [res_bind]; [|discriminate].
        destruct (resolve_each args cfg) as [os|e] eqn:Hos; cbn [res_bind]; [|discriminate].
        intros [= <-]. constructor; [exact Ho | apply IH; reflexivity].
      * intros HF. inversion HF as [|? o ? os Ho Hos]; subst.
        rewrite Ho. cbn [res_bind]. apply IH in Hos. rewrite Hos. reflexivity.
  - intros before arg after opened e -> Hbefore Hraise.
    rewrite Hspec in *. clear Hspec. revert opened Hbefore.
    induction before as [|a before IH]; intros opened Hbefore; cbn [app resolve_each] in *.
    + rewrite Hraise. reflexivity.
    + destruct (run (select_and_open a) cfg) as [o|e0]; cbn [res_bind] in *; [|discriminate].
      destruct (resolve_each before cfg) as [os|e0]; cbn [res_bind] in *; [|discriminate].
      rewrite (IH os eq_refl). reflexivity.
Qed.
End EngineEffects.

Section MainMore.
Context `{Host} `{Libs}.

(** The controller of a command line goes through the lines after the
    loop. *)
Lemma log_and_open_command (command : string) (b : browser) (url : string) :
  is_command command = true ->
  webbrowser_get (PyStr command) = Ret b ->
  log_and_open b url = Ret (b, url).
Proof.
  intros Hcommand Hget.
  destruct (command_controller command b Hcommand Hget)
    as ((name & Hname) & (args & Hargs) & Hopen).
  destruct (Hopen url) as (launched & Hlaunched).
  unfold log_and_open. rewrite Hname, Hargs, Hlaunched. reflexivity.
Qed.

(** Without a configuration file every URL of the command line is
    opened as it came, with the browser of the built-in Safari
    command, in the order given. *)
Theorem main_without_config_file (args : list string) (s : Config.t) (b : browser) :
  find_cfg_file = None ->
  webbrowser_get (PyStr BROWSER_DEFAULT) = Ret b ->
  run (main args) s = Ret (map (fun url => (b, url)) args).
Proof.
  intros Hnone Hb. unfold run, main. unfold bind at 1.
  rewrite Config_init_spec, Hnone.
  fold (run (open_all args) (Config.mk (PyStr BROWSER_DEFAULT) [])).
  unfold open_all. rewrite open_all_loop.
  assert (Heach : resolve_each args (Config.mk (PyStr BROWSER_DEFAULT) [])
                  = Ret (map (fun url => (b, url)) args)).
  { induction args as [|arg args IH]; [reflexivity|].
    cbn [resolve_each map]. unfold run at 1. rewrite select_and_open_unfold.
    cbn [fst Config.browser_default Config.rules]. rewrite Hb. cbn [res_bind].
    unfold run at 1. cbn [for_in ret fst res_bind snd].
    rewrite (log_and_open_command BROWSER_DEFAULT b arg eq_refl Hb). cbn [res_bind].
    rewrite IH. reflexivity. }
  rewrite Heach. reflexivity.
Qed.
End MainMore.

Section BrokenPattern.
Context `{Libs}.

Lemma rules_loop_ret_compiles (rs : list rule) :
  forall (locals out : string * browser) (s : Config.t) (r : rule) (pat : string) (e : exn),
    run (for_in rs apply_rule locals) s = Ret out ->
    r ∈ rs ->
    dict_get r "url_pattern" = PyStr pat ->
    re_compile pat <> Raise e.
Proof.
  induction rs as [|r0 rs IH]; intros locals out s r pat e Hrun Hin Hpat Hc.
  - inversion Hin.
  - rewrite rules_loop_cons in Hrun.
    destruct (run (apply_rule r0 locals) s) as [locals'|e0] eqn:Hr0; cbn [res_bind] in Hrun;
      [|discriminate].
    apply elem_of_cons in Hin as [->|Hin].
    + rewrite (apply_rule_bad_pattern r0 pat e locals s Hpat Hc) in Hr0. discriminate.
    + exact (IH _ _ _ _ _ _ Hrun Hin Hpat Hc).
Qed.

(** One rule whose pattern does not compile is enough for no URL at all
    to be opened: every rule with a string pattern is compiled for
    every URL, so the resolution of any URL raises. *)
Theorem broken_pattern_fails_every_url (url : string) (cfg : Config.t)
    (r : rule) (pat : string) (e : exn) :
  r ∈ Config.rules cfg ->
  dict_get r "url_pattern" = PyStr pat ->
  re_compile pat = Raise e ->
  exists e', run (select_and_open url) cfg = Raise e'.
Proof.
  intros Hin Hpat Hc.
  destruct (run (select_and_open url) cfg) as [[b u]|e'] eqn:Hrun; [|exists e'; reflexivity].
  exfalso. destruct cfg as [d rules]. cbn [Config.rules] in Hin.
  destruct (select_prefix_ret _ _ _ _ _ (Config.mk d rules) Hrun) as (b0 & _ & Hloop).
  exact (rules_loop_ret_compiles _ _ _ _ _ _ _ Hloop Hin Hpat Hc).
Qed.
End BrokenPattern.

(** ** The further properties at work *)


Lemma failure_is_final_witness :
  evaluate "http://example.com/" (safari [github_rule; bad_template_rule]) = Raise ReError
  /\ run (select_and_open "http://example.com/")
         (safari ([github_rule; bad_template_rule] ++ [firefox_rule]))
     = Raise ReError.
Proof.
  split; [vm_compute; reflexivity|].
  apply (proj2 (@failure_is_final example_libs "http://example.com/" (PyStr "safari")
                  [github_rule; bad_template_rule] [firefox_rule] ReError
                  ltac:(vm_compute; reflexivity))).
Defined.

(** Firefox is not installed; the rule that names it also rewrites the
    URL, and the later rule names chrome, which is installed. *)
Lemma browser_lookup_is_eager_witness :
  @run (@browser (libs_with_browsers ["safari"; "chrome"]) * string)
       (@select_and_open (libs_with_browsers ["safari"; "chrome"]) "https://www.example.com/a")
       (safari [chrome_rule])
    = Ret ("chrome", "https://www.example.com/a")
  /\ @run (@browser (libs_with_browsers ["safari"; "chrome"]) * string)
          (@select_and_open (libs_with_browsers ["safari"; "chrome"])
             "https://www.example.com/a")
          (safari ([] ++ mirror_rule :: [chrome_rule]))
     = Raise WebbrowserError.
Proof.
  split; [vm_compute; reflexivity|].
  unfold safari.
  rewrite (@browser_lookup_is_eager (libs_with_browsers ["safari"; "chrome"])
             "https://www.example.com/a" (PyStr "safari") [] [chrome_rule] mirror_rule
             "https://www.example.com/a" "https://(www\.)?example" "firefox" "safari"
             (regex_of "https://(www\.)?example") WebbrowserError);
    vm_compute; reflexivity.
Defined.

Lemma url_changes_only_by_url_replace_witness :
  forallb (fun r => negb (has_string "url_replace" r))
          (Config.rules (safari [github_rule; odd_replace_rule])) = true
  /\ run (select_and_open "http://example.com/") (safari [github_rule; odd_replace_rule])
     = Ret ("chrome", "http://example.com/")
  /\ "http://example.com/" = "http://example.com/".
Proof.
  split; [vm_compute; reflexivity|].
  split; [vm_compute; reflexivity|].
  apply (@url_changes_only_by_url_replace example_libs "http://example.com/"
           (safari [github_rule; odd_replace_rule]) "chrome" "http://example.com/");
    vm_compute; reflexivity.
Defined.

Lemma browser_changes_only_by_browser_id_witness :
  forallb (fun r => negb (has_string "browser_id" r))
          (Config.rules (safari [https_rule; upgrade_rule])) = true
  /\ run (select_and_open "http://example.com/") (safari [https_rule; upgrade_rule])
     = Ret ("safari", "https://example.com/")
  /\ webbrowser_get (Config.browser_default (safari [https_rule; upgrade_rule])) = Ret "safari".
Proof.
  split; [vm_compute; reflexivity|].
  split; [vm_compute; reflexivity|].
  apply (@browser_changes_only_by_browser_id example_libs "http://example.com/"
           (safari [https_rule; upgrade_rule]) "safari" "https://example.com/");
    vm_compute; reflexivity.
Defined.

(** The default browser is named, and its controller has no [name]. *)
Lemma select_and_open_exception_origin_witness :
  @run (@browser libs_without_names * string)
       (@select_and_open libs_without_names "https://github.com/x") (safari [https_rule])
    = Raise AttributeError
  /\ @evaluate libs_without_names "https://github.com/x" (safari [https_rule])
     = Ret ("https://github.com/x", "safari")
  /\ @browser_name libs_without_names "safari" = Raise AttributeError
  /\ (@webbrowser_get libs_without_names (Config.browser_default (safari [https_rule]))
        = Raise AttributeError
      \/ (exists r, r ∈ Config.rules (safari [https_rule])
                    /\ @library_raises libs_without_names r AttributeError)
      \/ (exists current selected,
            @evaluate libs_without_names "https://github.com/x" (safari [https_rule])
              = Ret (current, selected)
            /\ (@browser_name libs_without_names selected = Raise AttributeError
                \/ @browser_args libs_without_names selected = Raise AttributeError
                \/ @open_new_tab libs_without_names selected current = Raise AttributeError))).
Proof.
  split; [vm_compute; reflexivity|].
  split; [vm_compute; reflexivity|].
  split; [vm_compute; reflexivity|].
  apply (@select_and_open_exception_origin libs_without_names "https://github.com/x"
           (safari [https_rule]) AttributeError).
  vm_compute; reflexivity.
Defined.

Lemma open_all_resolves_in_order_witness :
  run (open_all ["https://github.com/x"]) (safari [github_rule; bad_template_rule])
    = Ret [("chrome", "https://github.com/x")]
  /\ run (select_and_open "http://example.com/") (safari [github_rule; bad_template_rule])
     = Raise ReError
  /\ run (open_all ["https://github.com/x"; "http://example.com/"; "https://github.com/y"])
         (safari [github_rule; bad_template_rule])
     = Raise ReError.
Proof.
  split; [vm_compute; reflexivity|].
  split; [vm_compute; reflexivity|].
  apply (proj2 (@open_all_resolves_in_order example_libs
                  ["https://github.com/x"; "http://example.com/"; "https://github.com/y"]
                  (safari [github_rule; bad_template_rule]))
           ["https://github.com/x"] "http://example.com/" ["https://github.com/y"]
           [("chrome", "https://github.com/x")] ReError);
    vm_compute; reflexivity.
Defined.

Lemma main_without_config_file_witness :
  @find_cfg_file host_without_file = None
  /\ webbrowser_get (PyStr BROWSER_DEFAULT) = Ret BROWSER_DEFAULT
  /\ run (@main host_without_file example_libs ["http://a.example/"; "http://b.example/"]) fresh
     = Ret [(BROWSER_DEFAULT, "http://a.example/"); (BROWSER_DEFAULT, "http://b.example/")].
Proof.
  split; [reflexivity|].
  split; [reflexivity|].
  apply (@main_without_config_file host_without_file example_libs
           ["http://a.example/"; "http://b.example/"] fresh BROWSER_DEFAULT);
    reflexivity.
Defined.

(** The broken rule comes last and its pattern has nothing to do with
    the URL. *)
Lemma broken_pattern_fails_every_url_witness :
  broken_rule ∈ Config.rules (safari [github_rule; broken_rule])
  /\ dict_get broken_rule "url_pattern" = PyStr "(internal"
  /\ re_compile "(internal" = Raise ReError
  /\ exists e', run (select_and_open "https://github.com/x") (safari [github_rule; broken_rule])
               = Raise e'.
Proof.
  assert (Hin : broken_rule ∈ Config.rules (safari [github_rule; broken_rule]))
    by (right; left).
  split; [exact Hin|].
  split; [vm_compute; reflexivity|].
  split; [vm_compute; reflexivity|].
  apply (@broken_pattern_fails_every_url example_libs "https://github.com/x"
           (safari [github_rule; broken_rule]) broken_rule "(internal" ReError Hin);
    vm_compute; reflexivity.
Defined.
